(** * SignUp-APP: the record store, the credential store and the exporters

    A shallow embedding of [src/app.py].  The SQLite file is a record of
    three tables, every [Database] method is a function from a database to a
    result and the database it leaves; a Python [str] is the string of its
    UTF-8 bytes, a Python [dict] an association list in insertion order.  A
    raised exception is the [Raise] of [result].  The window layer is reduced
    to what the two exporters do to the outside: message boxes, files
    written. *)

From Stdlib Require Import String Ascii List ZArith NArith QArith Lia Bool.
From Stdlib Require Import Sorted Permutation.
Import ListNotations.
Open Scope string_scope.
Open Scope Z_scope.

(** ** Exceptions and results *)

(** The exceptions the modelled code can raise.  [NotModelled] marks the
    inputs of [json.loads] that lie outside the fragment described below. *)
Inductive exn : Type :=
| IntegrityError (constraint : string)
| JSONDecodeError (msg : string)
| NotModelled (what : string).

Inductive result (A : Type) : Type :=
| Ok (a : A)
| Raise (e : exn).
Arguments Ok {A} a.
Arguments Raise {A} e.

Definition bind {A B : Type} (r : result A) (k : A -> result B) : result B :=
  match r with
  | Ok a => k a
  | Raise e => Raise e
  end.

Notation "x <- r ;; k" := (bind r (fun x => k))
  (at level 61, r at next level, right associativity).
Notation "' p <- r ;; k" := (bind r (fun p => k))
  (at level 61, p pattern, r at next level, right associativity).

Fixpoint mapM {A B : Type} (f : A -> result B) (l : list A) : result (list B) :=
  match l with
  | [] => Ok []
  | a :: l' => b <- f a ;; bs <- mapM f l' ;; Ok (b :: bs)
  end.

(** ** Python strings and integers *)

(** Truthiness of an [Optional[str]]: [None] and [""] are false. *)
Definition truthy (v : option string) : bool :=
  match v with
  | Some s => negb (s =? "")%string
  | None => false
  end.

(** [v or d] for an [Optional[str]] on the left and a [str] on the right. *)
Definition py_or (v : option string) (d : string) : string :=
  match v with
  | Some s => if (s =? "")%string then d else s
  | None => d
  end.

(** [row[0] or 0] for the nullable integer a [SELECT MAX(...)] returns. *)
Definition py_or_int (v : option Z) (d : Z) : Z :=
  match v with
  | Some n => if n =? 0 then d else n
  | None => d
  end.

Definition digit_char (d : Z) : ascii := ascii_of_N (48 + Z.to_N d).

(** The decimal digits of a non-negative integer, least significant one
    first, pushed in front of [acc]. *)
Fixpoint decimal_digits (fuel : nat) (n : Z) (acc : string) : string :=
  match fuel with
  | O => acc
  | S fuel' =>
      let acc' := String (digit_char (n mod 10)) acc in
      if n / 10 =? 0 then acc' else decimal_digits fuel' (n / 10) acc'
  end.

(** [str(n)] for [0 <= n]: a number below [2 ^ fuel] has at most [fuel]
    decimal digits. *)
Definition str_of_nonneg (n : Z) : string :=
  decimal_digits (S (Z.to_nat (Z.log2 n))) n "".

Fixpoint repeat_char (c : ascii) (k : nat) : string :=
  match k with
  | O => ""
  | S k' => String c (repeat_char c k')
  end.

(** Left padding with ['0'] up to [width]; a longer string is left alone. *)
Definition zfill (width : nat) (s : string) : string :=
  repeat_char "0" (width - String.length s) ++ s.

(** The format specification [05d]: sign-aware zero padding to a minimum
    width of five characters. *)
Definition format_05d (n : Z) : string :=
  if n <? 0 then "-" ++ zfill 4 (str_of_nonneg (- n))
  else zfill 5 (str_of_nonneg n).

(** Hexadecimal, lower case, as [bytes.hex()] and the [x] format produce. *)
Definition hex_digit (d : N) : ascii :=
  if (d <? 10)%N then ascii_of_N (48 + d) else ascii_of_N (87 + d).

Definition hex_byte (c : ascii) : string :=
  let n := N_of_ascii c in
  String (hex_digit (n / 16)) (String (hex_digit (n mod 16)) "").

Fixpoint hex (bs : list ascii) : string :=
  match bs with
  | [] => ""
  | b :: bs' => hex_byte b ++ hex bs'
  end.

Fixpoint join (sep : string) (parts : list string) : string :=
  match parts with
  | [] => ""
  | [p] => p
  | p :: ps => p ++ sep ++ join sep ps
  end.

(** ** Python dictionaries

    A [Dict[str, str]] keeps its keys in insertion order: assigning to a key
    that is present replaces the value where the key stands, assigning to a
    new key appends it. *)
Definition dict : Type := list (string * string).

Fixpoint dict_get (k : string) (d : dict) : option string :=
  match d with
  | [] => None
  | (k', v) :: d' => if (k' =? k)%string then Some v else dict_get k d'
  end.

(** [d.get(k, default)] *)
Definition dict_get_default (k : string) (default : string) (d : dict) : string :=
  match dict_get k d with
  | Some v => v
  | None => default
  end.

(** [d[k] = v] *)
Fixpoint dict_set (k v : string) (d : dict) : dict :=
  match d with
  | [] => [(k, v)]
  | (k', v') :: d' => if (k' =? k)%string then (k', v) :: d' else (k', v') :: dict_set k v d'
  end.

(** [d.update(e)] *)
Definition dict_update (d e : dict) : dict :=
  fold_left (fun acc kv => dict_set (fst kv) (snd kv) acc) e d.

Definition dict_keys (d : dict) : list string := map fst d.

(** What Python guarantees of every dictionary: no key occurs twice. *)
Definition dict_wf (d : dict) : Prop := NoDup (dict_keys d).


(** ** JSON text

    [json.dumps(d, ensure_ascii=False)] of a [Dict[str, str]] and
    [json.loads] on the texts that are objects with string values.  Strings
    are UTF-8 bytes here, so a byte above 127 is copied as it is, the way
    [ensure_ascii=False] copies the character it belongs to. *)

Definition dquote : ascii := "034"%char.
Definition backslash : ascii := "092"%char.

(** [ESCAPE_DCT] of [json.encoder]: the two-character escapes, and
    [\u00xx] for the other characters below the space. *)
Definition escape_char (c : ascii) : string :=
  let n := N_of_ascii c in
  if (n =? 34)%N then String backslash (String dquote "")
  else if (n =? 92)%N then String backslash (String backslash "")
  else if (n =? 10)%N then String backslash "n"
  else if (n =? 13)%N then String backslash "r"
  else if (n =? 9)%N then String backslash "t"
  else if (n =? 8)%N then String backslash "b"
  else if (n =? 12)%N then String backslash "f"
  else if (n <? 32)%N then String backslash "u00" ++ hex_byte c
  else String c "".

Fixpoint escape_string (s : string) : string :=
  match s with
  | EmptyString => ""
  | String c s' => escape_char c ++ escape_string s'
  end.

(** [encode_basestring] *)
Definition encode_basestring (s : string) : string :=
  String dquote (escape_string s ++ String dquote "").

Definition encode_item (kv : string * string) : string :=
  encode_basestring (fst kv) ++ ": " ++ encode_basestring (snd kv).

(** [json.dumps] with the default separators [", "] and [": "]. *)
Definition json_dumps (d : dict) : string :=
  "{" ++ join ", " (map encode_item d) ++ "}".

(** The decoder. *)
Definition is_ws (c : ascii) : bool :=
  let n := N_of_ascii c in
  ((n =? 32) || (n =? 9) || (n =? 10) || (n =? 13))%N.

Fixpoint skip_ws (s : string) : string :=
  match s with
  | String c s' => if is_ws c then skip_ws s' else s
  | EmptyString => s
  end.

Definition hex_value (c : ascii) : option N :=
  let n := N_of_ascii c in
  if ((48 <=? n) && (n <=? 57))%N then Some (n - 48)%N
  else if ((97 <=? n) && (n <=? 102))%N then Some (n - 87)%N
  else if ((65 <=? n) && (n <=? 70))%N then Some (n - 55)%N
  else None.

Definition hex4_value (h1 h2 h3 h4 : ascii) : option N :=
  match hex_value h1, hex_value h2, hex_value h3, hex_value h4 with
  | Some a, Some b, Some c, Some d => Some (((a * 16 + b) * 16 + c) * 16 + d)%N
  | _, _, _, _ => None
  end.

(** The UTF-8 bytes of a code point of the basic plane; a surrogate has
    none. *)
Definition utf8_encode (cp : N) : option string :=
  if (cp <? 128)%N then Some (String (ascii_of_N cp) "")
  else if (cp <? 2048)%N then
    Some (String (ascii_of_N (192 + cp / 64))
         (String (ascii_of_N (128 + cp mod 64)) ""))
  else if ((55296 <=? cp) && (cp <=? 57343))%N then None
  else
    Some (String (ascii_of_N (224 + cp / 4096))
         (String (ascii_of_N (128 + (cp / 64) mod 64))
         (String (ascii_of_N (128 + cp mod 64)) ""))).

(** [BACKSLASH] of [json.decoder] *)
Definition unescape_char (e : ascii) : option ascii :=
  let n := N_of_ascii e in
  if (n =? 34)%N then Some dquote
  else if (n =? 92)%N then Some backslash
  else if (n =? 47)%N then Some "/"%char
  else if (n =? 98)%N then Some (ascii_of_N 8)
  else if (n =? 102)%N then Some (ascii_of_N 12)
  else if (n =? 110)%N then Some (ascii_of_N 10)
  else if (n =? 114)%N then Some (ascii_of_N 13)
  else if (n =? 116)%N then Some (ascii_of_N 9)
  else None.

(** [scanstring] in strict mode, entered after the opening quote: the
    decoded string and the text after the closing quote. *)
Fixpoint scanstring (s : string) : result (string * string) :=
  match s with
  | EmptyString => Raise (JSONDecodeError "Unterminated string starting at")
  | String c rest =>
      if (c =? dquote)%char then Ok ("", rest)
      else if (c =? backslash)%char then
        match rest with
        | EmptyString => Raise (JSONDecodeError "Unterminated string starting at")
        | String e rest' =>
            if (e =? "u")%char then
              match rest' with
              | String h1 (String h2 (String h3 (String h4 rest''))) =>
                  match hex4_value h1 h2 h3 h4 with
                  | None => Raise (JSONDecodeError "Invalid \uXXXX escape")
                  | Some cp =>
                      match utf8_encode cp with
                      | None => Raise (NotModelled "surrogate escape")
                      | Some bytes =>
                          '(str, after) <- scanstring rest'' ;;
                          Ok (bytes ++ str, after)
                      end
                  end
              | _ => Raise (JSONDecodeError "Invalid \uXXXX escape")
              end
            else
              match unescape_char e with
              | None => Raise (JSONDecodeError "Invalid \escape")
              | Some b =>
                  '(str, after) <- scanstring rest' ;;
                  Ok (String b str, after)
              end
        end
      else if (N_of_ascii c <? 32)%N then
        Raise (JSONDecodeError "Invalid control character at")
      else
        '(str, after) <- scanstring rest ;;
        Ok (String c str, after)
  end.

(** The loop of [JSONObject], entered in front of the quote that opens a
    key; [pairs] is the dictionary built so far (a repeated key keeps its
    place and takes the later value).  A value that is not a string is
    outside the model.  Every turn consumes text, so the length of the text
    is fuel enough. *)
Fixpoint parse_members (fuel : nat) (s : string) (pairs : dict)
  : result (dict * string) :=
  match fuel with
  | O => Raise (NotModelled "fuel")
  | S fuel' =>
      match s with
      | String q s1 =>
          if (q =? dquote)%char then
            '(key, s2) <- scanstring s1 ;;
            match skip_ws s2 with
            | String colon s3 =>
                if (colon =? ":")%char then
                  match skip_ws s3 with
                  | String q' s4 =>
                      if (q' =? dquote)%char then
                        '(value, s5) <- scanstring s4 ;;
                        let pairs' := dict_set key value pairs in
                        match skip_ws s5 with
                        | String d s6 =>
                            if (d =? "}")%char then Ok (pairs', s6)
                            else if (d =? ",")%char then
                              parse_members fuel' (skip_ws s6) pairs'
                            else Raise (JSONDecodeError "Expecting ',' delimiter")
                        | EmptyString =>
                            Raise (JSONDecodeError "Expecting ',' delimiter")
                        end
                      else Raise (NotModelled "value that is not a string")
                  | EmptyString => Raise (JSONDecodeError "Expecting value")
                  end
                else Raise (JSONDecodeError "Expecting ':' delimiter")
            | EmptyString => Raise (JSONDecodeError "Expecting ':' delimiter")
            end
          else
            Raise (JSONDecodeError
                     "Expecting property name enclosed in double quotes")
      | EmptyString =>
          Raise (JSONDecodeError
                   "Expecting property name enclosed in double quotes")
      end
  end.

(** [json.loads]: one object, white space around it, nothing after it.  A
    text that is another JSON value is outside the model. *)
Definition json_loads (text : string) : result dict :=
  match skip_ws text with
  | String c s1 =>
      if (c =? "{")%char then
        '(d, after) <-
          match skip_ws s1 with
          | String c' s2 =>
              if (c' =? "}")%char then Ok ([], s2)
              else parse_members (String.length text) (skip_ws s1) []
          | EmptyString =>
              Raise (JSONDecodeError
                       "Expecting property name enclosed in double quotes")
          end ;;
        match skip_ws after with
        | EmptyString => Ok d
        | String _ _ => Raise (JSONDecodeError "Extra data")
        end
      else Raise (NotModelled "text that is not an object")
  | EmptyString => Raise (JSONDecodeError "Expecting value")
  end.

(** ** The SQLite file

    Three tables.  A column declared [NOT NULL] holds a string, a nullable
    one an [option]; the program binds nothing but [str] and [None].  Both
    [id] columns are [INTEGER PRIMARY KEY AUTOINCREMENT]: a new row takes one
    more than the largest rowid the table ever held, which SQLite keeps in
    [sqlite_sequence] and which is [users_seq] and [clients_seq] here.  (The
    rowids are 64-bit in SQLite and unbounded here.) *)

Record user_row : Type := {
  users_id : Z;
  username : string;
  password_hash : string;
  salt : string
}.

Record client_row : Type := {
  clients_id : Z;
  kundennummer : string;
  ma : option string;
  name : option string;
  strasse : option string;
  plz : option string;
  ort : option string;
  geburtsdatum : option string;
  pg : option string;
  versicherungsnummer : option string;
  pflegekasse : option string;
  telefon : option string;
  preise : option string;
  fahrtkosten : option string;
  bemerkungen : option string;
  extra_fields : option string
}.

Record database : Type := {
  users : list user_row;
  users_seq : Z;
  clients : list client_row;
  clients_seq : Z;
  app_settings : list (string * option string)
}.

(** What [_ensure_db] leaves on a path that held no file: the three tables,
    empty. *)
Definition empty_database : database :=
  {| users := []; users_seq := 0; clients := []; clients_seq := 0;
     app_settings := [] |}.

(** [CREATE TABLE IF NOT EXISTS]: a file that is there is left as it is. *)
Definition _ensure_db (file : option database) : database :=
  match file with
  | Some db => db
  | None => empty_database
  end.

(** [SELECT MAX(id)]: [NULL] on an empty table. *)
Fixpoint select_max {R : Type} (col : R -> Z) (rows : list R) : option Z :=
  match rows with
  | [] => None
  | r :: rows' =>
      match select_max col rows' with
      | None => Some (col r)
      | Some m => Some (Z.max (col r) m)
      end
  end.

(** The rowid [AUTOINCREMENT] gives to the next row. *)
Definition next_rowid {R : Type} (col : R -> Z) (rows : list R) (seq : Z) : Z :=
  match select_max col rows with
  | None => seq + 1
  | Some m => Z.max seq m + 1
  end.

(** [INSERT INTO users (username, password_hash, salt)] inside
    [with self._connect() as conn]: committed when the block ends, rolled
    back when it raises.  The statement fails as a whole on
    [username TEXT UNIQUE]. *)
Definition insert_user (db : database) (u h s : string)
  : result unit * database :=
  if existsb (fun r => (username r =? u)%string) (users db) then
    (Raise (IntegrityError "UNIQUE constraint failed: users.username"), db)
  else
    let rowid := next_rowid users_id (users db) (users_seq db) in
    (Ok tt,
     {| users := users db ++
                 [{| users_id := rowid; username := u;
                     password_hash := h; salt := s |}];
        users_seq := rowid;
        clients := clients db;
        clients_seq := clients_seq db;
        app_settings := app_settings db |}).

(** [SELECT password_hash, salt FROM users WHERE username = ?], [fetchone] *)
Definition select_user (db : database) (u : string) : option (string * string) :=
  match find (fun r => (username r =? u)%string) (users db) with
  | Some r => Some (password_hash r, salt r)
  | None => None
  end.

(** The row [r] under the rowid it is stored with. *)
Definition with_rowid (rowid : Z) (r : client_row) : client_row :=
  {| clients_id := rowid;
     kundennummer := kundennummer r;
     ma := ma r; name := name r; strasse := strasse r;
     plz := plz r; ort := ort r;
     geburtsdatum := geburtsdatum r; pg := pg r;
     versicherungsnummer := versicherungsnummer r;
     pflegekasse := pflegekasse r; telefon := telefon r;
     preise := preise r; fahrtkosten := fahrtkosten r;
     bemerkungen := bemerkungen r;
     extra_fields := extra_fields r |}.

(** The database with one more client row, at the end of the table. *)
Definition append_client (db : database) (row : client_row) : database :=
  {| users := users db;
     users_seq := users_seq db;
     clients := clients db ++ [row];
     clients_seq := clients_id row;
     app_settings := app_settings db |}.

(** [INSERT INTO clients (...)] of the columns of [r] other than its
    rowid, committed or rolled back as above; the statement fails as a whole
    on [kundennummer TEXT UNIQUE]. *)
Definition insert_client (db : database) (r : client_row)
  : result unit * database :=
  if existsb (fun r' => (kundennummer r' =? kundennummer r)%string) (clients db)
  then
    (Raise (IntegrityError "UNIQUE constraint failed: clients.kundennummer"), db)
  else
    let rowid := next_rowid clients_id (clients db) (clients_seq db) in
    (Ok tt, append_client db (with_rowid rowid r)).

(** [ORDER BY id DESC] *)
Fixpoint insert_desc (r : client_row) (sorted : list client_row) : list client_row :=
  match sorted with
  | [] => [r]
  | r' :: sorted' =>
      if clients_id r' <=? clients_id r then r :: sorted
      else r' :: insert_desc r sorted'
  end.

Definition order_by_id_desc (rows : list client_row) : list client_row :=
  fold_right insert_desc [] rows.

(** ** class Database *)

Section Credentials.

(** [hashlib.pbkdf2_hmac(hash_name, password, salt, iterations)], from the
    Python library: any function of these four arguments. *)
Variable pbkdf2_hmac : string -> string -> string -> Z -> list ascii.

Definition _hash_password (password salt_ : string) : string :=
  let hashed := pbkdf2_hmac "sha256" password salt_ 120000 in
  hex hashed.

(** [secrets.token_hex(nbytes)]: the hexadecimal text of [nbytes] bytes
    drawn from the system's random source; [urandom i] is the byte the
    source gives in place [i] of this draw. *)
Definition token_bytes (urandom : nat -> ascii) (nbytes : nat) : list ascii :=
  map urandom (seq 0 nbytes).

Definition token_hex (urandom : nat -> ascii) (nbytes : nat) : string :=
  hex (token_bytes urandom nbytes).

Definition create_user (db : database) (urandom : nat -> ascii)
    (username_ password : string) : result bool * database :=
  let salt_ := token_hex urandom 16 in
  let password_hash_ := _hash_password password salt_ in
  match insert_user db username_ password_hash_ salt_ with
  | (Ok _, db') => (Ok true, db')
  | (Raise (IntegrityError _), db') => (Ok false, db')
  | (Raise e, db') => (Raise e, db')
  end.

Definition validate_user (db : database) (username_ password : string) : bool :=
  match select_user db username_ with
  | None => false
  | Some (password_hash_, salt_) =>
      (password_hash_ =? _hash_password password salt_)%string
  end.

End Credentials.

Definition _next_kundennummer (db : database) : string :=
  let row := select_max clients_id (clients db) in
  let next_id := py_or_int row 0 + 1 in
  "K-" ++ format_05d next_id.

(** The tuple [save_client] binds to the statement. *)
Definition row_of_data (kundennummer_ : string) (data : dict)
    (extra_text : string) : client_row :=
  {| clients_id := 0;
     kundennummer := kundennummer_;
     ma := dict_get "ma" data;
     name := dict_get "name" data;
     strasse := dict_get "strasse" data;
     plz := dict_get "plz" data;
     ort := dict_get "ort" data;
     geburtsdatum := dict_get "geburtsdatum" data;
     pg := dict_get "pg" data;
     versicherungsnummer := dict_get "versicherungsnummer" data;
     pflegekasse := dict_get "pflegekasse" data;
     telefon := dict_get "telefon" data;
     preise := dict_get "preise" data;
     fahrtkosten := dict_get "fahrtkosten" data;
     bemerkungen := dict_get "bemerkungen" data;
     extra_fields := Some extra_text |}.

Definition save_client (db : database) (data extra_fields_ : dict)
  : result unit * database :=
  let kundennummer_ :=
    py_or (dict_get "kundennummer" data) (_next_kundennummer db) in
  insert_client db
    (row_of_data kundennummer_ data (json_dumps extra_fields_)).

(** The dictionary literal of [list_clients], before [update]. *)
Definition client_of_row (row : client_row) : dict :=
  [ ("kundennummer", kundennummer row);
    ("ma", py_or (ma row) "");
    ("name", py_or (name row) "");
    ("strasse", py_or (strasse row) "");
    ("plz", py_or (plz row) "");
    ("ort", py_or (ort row) "");
    ("geburtsdatum", py_or (geburtsdatum row) "");
    ("pg", py_or (pg row) "");
    ("versicherungsnummer", py_or (versicherungsnummer row) "");
    ("pflegekasse", py_or (pflegekasse row) "");
    ("telefon", py_or (telefon row) "");
    ("preise", py_or (preise row) "");
    ("fahrtkosten", py_or (fahrtkosten row) "");
    ("bemerkungen", py_or (bemerkungen row) "") ].

(** The body of the loop of [list_clients]. *)
Definition client_of_row_merged (row : client_row) : result dict :=
  let client := client_of_row row in
  extra <- json_loads (py_or (extra_fields row) "{}") ;;
  Ok (dict_update client extra).

Definition list_clients (db : database) : result (list dict) :=
  let rows := order_by_id_desc (clients db) in
  mapM client_of_row_merged rows.

(** ** The exporters

    What the window layer does to the outside: the message boxes it shows
    and the files it writes.  The path a file dialog returns is an argument
    of the handler, [""] when the dialog was cancelled. *)

Inductive message_kind : Type := showinfo | showwarning | showerror.

Record message : Type := {
  msg_kind : message_kind;
  msg_title : string;
  msg_text : string
}.

(** The [reportlab] canvas calls of [_export_pdf]; lengths are points, as
    exact rationals. *)
Inductive pdf_op : Type :=
| setFont (psfontname : string) (size : Q)
| setFillColorRGB (r g b : Q)
| drawString (x y : Q) (text : string)
| setLineWidth (width : Q)
| line (x1 y1 x2 y2 : Q)
| showPage.

Inductive file_content : Type :=
| Xlsx (sheet : list (list string))
| Pdf (pagesize : Q * Q) (ops : list pdf_op).

Record world : Type := {
  w_db : database;
  w_files : list (string * file_content);
  w_messages : list message
}.

Definition messagebox (k : message_kind) (title text : string) (w : world) : world :=
  {| w_db := w_db w;
     w_files := w_files w;
     w_messages := w_messages w ++
                   [{| msg_kind := k; msg_title := title; msg_text := text |}] |}.

Definition write_file (path : string) (c : file_content) (w : world) : world :=
  {| w_db := w_db w;
     w_files := (path, c) :: w_files w;
     w_messages := w_messages w |}.

(** [ClientApp._export_excel] *)
Definition _export_excel (file_path : string) (w : world) : result world :=
  clients_ <- list_clients (w_db w) ;;
  match clients_ with
  | [] => Ok (messagebox showinfo "Hinweis" "Keine Kunden zum Exportieren." w)
  | first :: _ =>
      let headers := dict_keys first in
      let sheet :=
        headers ::
        map (fun client => map (fun h => dict_get_default h "" client) headers)
            clients_ in
      if negb (truthy (Some file_path)) then Ok w
      else
        let w := write_file file_path (Xlsx sheet) w in
        Ok (messagebox showinfo "Erfolg"
              ("Excel wurde gespeichert: " ++ file_path) w)
  end.

(** [reportlab.lib.pagesizes.A4]: 210 mm by 297 mm, one mm being
    72 / 25.4 points. *)
Definition mm : Q := 360 # 127.
Definition A4 : Q * Q := (210 * mm, 297 * mm)%Q.

Record ContractWindow : Type := {
  client : dict;
  company_name : string;
  logo_path : string;
  accent_color : string;
  strokes : list (list (Z * Z))
}.

Definition nl : string := String (ascii_of_N 10) "".

(** The list [lines] of [_compose_contract_text]. *)
Definition contract_text_lines (self : ContractWindow) : list string :=
  let get k := dict_get_default k "" (client self) in
  let lines :=
    [ "Kundennummer: " ++ get "kundennummer";
      "Name: " ++ get "name";
      "Straße / Ort: " ++ get "strasse" ++ ", " ++ get "plz" ++ " " ++ get "ort";
      "Geburtsdatum: " ++ get "geburtsdatum";
      "Pflegegrad: " ++ get "pg";
      "Versicherungs-Nr.: " ++ get "versicherungsnummer";
      "Pflegekasse: " ++ get "pflegekasse";
      "";
      "Dieser Vertrag bestätigt die Erbringung der vereinbarten Leistungen.";
      "Die Konditionen richten sich nach den hinterlegten Preisen und Fahrtkosten.";
      "Bitte prüfen Sie die Angaben und unterzeichnen Sie digital." ] in
  let lines :=
    if truthy (Some (company_name self))
    then (lines ++ [""; ("Anbieter: " ++ company_name self)%string])%list
    else lines in
  let lines :=
    if truthy (Some (logo_path self))
    then (lines ++ [("Logo-Datei: " ++ logo_path self)%string])%list
    else lines in
  lines.

(** [ContractWindow._compose_contract_text] *)
Definition _compose_contract_text (self : ContractWindow) : string :=
  join nl (contract_text_lines self).

(** The inner loop of [_export_pdf]: one segment for every two neighbouring
    points of a stroke. *)
Definition stroke_lines (y : Q) (stroke : list (Z * Z)) : list pdf_op :=
  map (fun i =>
         let p1 := nth i stroke (0, 0) in
         let p2 := nth (i + 1)%nat stroke (0, 0) in
         line (50 + inject_Z (fst p1)) (y + inject_Z (snd p1))
              (50 + inject_Z (fst p2)) (y + inject_Z (snd p2)))
      (seq 0 (List.length stroke - 1)%nat).

(** The canvas calls of [_export_pdf], in the order they are made. *)
Definition contract_page (self : ContractWindow) : list pdf_op :=
  let get k := dict_get_default k "" (client self) in
  let height := snd A4 in
  let y := (height - 60)%Q in
  let ops := [ setFont "Helvetica-Bold" 14;
               setFillColorRGB (12 # 100) (16 # 100) (22 # 100);
               drawString 50 y "Vertrag" ] in
  let y := (y - 20)%Q in
  let ops := (ops ++ [ setFont "Helvetica" 10;
                       drawString 50 y ("Kundennummer: " ++ get "kundennummer") ])%list in
  let y := (y - 16)%Q in
  let ops := (ops ++ [ drawString 50 y ("Name: " ++ get "name") ])%list in
  let y := (y - 16)%Q in
  let ops := (ops ++ [ drawString 50 y
                         ("Adresse: " ++ get "strasse" ++ ", " ++ get "plz"
                                      ++ " " ++ get "ort") ])%list in
  let y := (y - 16)%Q in
  let ops := (ops ++ [ drawString 50 y ("Geburtsdatum: " ++ get "geburtsdatum") ])%list in
  let y := (y - 16)%Q in
  let ops := (ops ++ [ drawString 50 y ("Pflegegrad: " ++ get "pg") ])%list in
  let y := (y - 16)%Q in
  let ops := (ops ++ [ drawString 50 y
                         ("Versicherungs-Nr.: " ++ get "versicherungsnummer") ])%list in
  let y := (y - 16)%Q in
  let ops := (ops ++ [ drawString 50 y ("Pflegekasse: " ++ get "pflegekasse") ])%list in
  let y := (y - 30)%Q in
  let ops := (ops ++ [ drawString 50 y
      "Mit der Unterzeichnung bestätigen beide Parteien den Vertrag." ])%list in
  let y := (y - 40)%Q in
  let ops := (ops ++ [ setFont "Helvetica-Bold" 12;
                       drawString 50 y "Signatur" ])%list in
  let y := (y - 10)%Q in
  let ops := (ops ++ [ setLineWidth 2 ])%list in
  let ops := (ops ++ concat (map (stroke_lines y) (strokes self)))%list in
  (ops ++ [ showPage ])%list.

(** [ContractWindow._export_pdf] *)
Definition _export_pdf (self : ContractWindow) (file_path : string) (w : world)
  : world :=
  if negb (truthy (Some file_path)) then w
  else
    let w := write_file file_path (Pdf A4 (contract_page self)) w in
    messagebox showinfo "Erfolg" ("PDF gespeichert: " ++ file_path) w.

(** ** Vocabulary of the statements *)

(** The fourteen columns of a client other than the rowid and the JSON text,
    in the order of the [SELECT]. *)
Definition fixed_fields : list string :=
  [ "kundennummer"; "ma"; "name"; "strasse"; "plz"; "ort"; "geburtsdatum";
    "pg"; "versicherungsnummer"; "pflegekasse"; "telefon"; "preise";
    "fahrtkosten"; "bemerkungen" ].

(** The thirteen optional text fields. *)
Definition text_fields : list string := tl fixed_fields.

(** The stored value of a fixed column, [None] for [NULL]. *)
Definition column (f : string) (row : client_row) : option string :=
  if (f =? "kundennummer")%string then Some (kundennummer row)
  else if (f =? "ma")%string then ma row
  else if (f =? "name")%string then name row
  else if (f =? "strasse")%string then strasse row
  else if (f =? "plz")%string then plz row
  else if (f =? "ort")%string then ort row
  else if (f =? "geburtsdatum")%string then geburtsdatum row
  else if (f =? "pg")%string then pg row
  else if (f =? "versicherungsnummer")%string then versicherungsnummer row
  else if (f =? "pflegekasse")%string then pflegekasse row
  else if (f =? "telefon")%string then telefon row
  else if (f =? "preise")%string then preise row
  else if (f =? "fahrtkosten")%string then fahrtkosten row
  else if (f =? "bemerkungen")%string then bemerkungen row
  else None.

(** The order of [ORDER BY id DESC] between a row and the next. *)
Definition newer_first (r r' : client_row) : Prop :=
  clients_id r' <= clients_id r.

(** Saving several records one after the other, up to the first that
    raises. *)
Fixpoint save_clients (db : database) (records : list (dict * dict))
  : result unit * database :=
  match records with
  | [] => (Ok tt, db)
  | (data, extra) :: records' =>
      match save_client db data extra with
      | (Ok _, db') => save_clients db' records'
      | (Raise e, db') => (Raise e, db')
      end
  end.

(** The record [list_clients] is to return for a record saved under the
    identifier [kn]. *)
Definition listed_record (kn : string) (data extra : dict) : dict :=
  dict_update (client_of_row (row_of_data kn data "")) extra.

(** Reading a decimal numeral: digits only, most significant first. *)
Definition digit_value (c : ascii) : option Z :=
  let n := N_of_ascii c in
  if ((48 <=? n) && (n <=? 57))%N then Some (Z.of_N n - 48) else None.

Fixpoint decimal_value_from (acc : Z) (s : string) : option Z :=
  match s with
  | EmptyString => Some acc
  | String c s' =>
      match digit_value c with
      | Some d => decimal_value_from (10 * acc + d) s'
      | None => None
      end
  end.

(** An optional minus sign, then at least one digit. *)
Definition decimal_value (s : string) : option Z :=
  match s with
  | EmptyString => None
  | String c s' =>
      if (c =? "-")%char then
        match s' with
        | EmptyString => None
        | String _ _ => option_map Z.opp (decimal_value_from 0 s')
        end
      else decimal_value_from 0 s
  end.

(** The number after [K-] in an identifier. *)
Definition numeric_suffix (kn : string) : option Z :=
  match kn with
  | String k (String m digits) =>
      if ((k =? "K") && (m =? "-"))%char then decimal_value digits else None
  | _ => None
  end.

(** The rule of the specification for [nextIdentifier], in its words: one
    greater than the highest numeric suffix currently stored, 0 if empty,
    as [K-] and five zero-padded digits. *)
Definition highest_suffix (db : database) : Z :=
  fold_right
    (fun row m =>
       match numeric_suffix (kundennummer row) with
       | Some n => Z.max n m
       | None => m
       end)
    0 (clients db).

Definition spec_nextIdentifier (db : database) : string :=
  "K-" ++ zfill 5 (str_of_nonneg (highest_suffix db + 1)).

(** [s] begins with [p]. *)
Fixpoint starts_with (p s : string) : bool :=
  match p with
  | EmptyString => true
  | String a p' =>
      match s with
      | EmptyString => false
      | String b s' => (a =? b)%char && starts_with p' s'
      end
  end.

(** The text calls among the canvas calls, and the segments. *)
Definition drawn_texts (ops : list pdf_op) : list (Q * Q * string) :=
  flat_map (fun op =>
              match op with
              | drawString x y text => [(x, y, text)]
              | _ => []
              end) ops.

Definition drawn_lines (ops : list pdf_op) : list pdf_op :=
  filter (fun op => match op with line _ _ _ _ => true | _ => false end) ops.

Definition page_count (ops : list pdf_op) : nat :=
  List.length
    (filter (fun op => match op with showPage => true | _ => false end) ops).

(** A text drawn at a place, up to equality of rationals. *)
Definition text_at (x y : Q) (text : string) (d : Q * Q * string) : Prop :=
  (fst (fst d) == x)%Q /\ (snd (fst d) == y)%Q /\ snd d = text.

(** The seven label and value lines of the page. *)
Definition label_value_lines (self : ContractWindow) : list string :=
  let get k := dict_get_default k "" (client self) in
  [ "Kundennummer: " ++ get "kundennummer";
    "Name: " ++ get "name";
    "Adresse: " ++ get "strasse" ++ ", " ++ get "plz" ++ " " ++ get "ort";
    "Geburtsdatum: " ++ get "geburtsdatum";
    "Pflegegrad: " ++ get "pg";
    "Versicherungs-Nr.: " ++ get "versicherungsnummer";
    "Pflegekasse: " ++ get "pflegekasse" ].

(** The layout the specification describes for the exported page: a title,
    eight label and value lines, a company line exactly when a company name
    is set, the boilerplate sentence, the signature heading. *)
Definition spec_contract_layout (texts : list string) (company : string) : Prop :=
  exists title lines company_line boilerplate signature,
    texts = ([title] ++ lines ++ company_line ++ [boilerplate; signature])%list /\
    List.length lines = 8%nat /\
    (company <> "" -> List.length company_line = 1%nat) /\
    (company = "" -> company_line = []).

(** A record that leaves the identifier to [save_client]: no
    [kundennummer], or an empty one. *)
Definition auto_identifier (record : dict * dict) : Prop :=
  truthy (dict_get "kundennummer" (fst record)) = false.

(** The rowids and identifiers of a table filled by [n] saves that left the
    identifier to [save_client]. *)
Definition auto_assigned (n : nat) (db : database) : Prop :=
  map (fun r => (clients_id r, kundennummer r)) (clients db) =
  map (fun i => (Z.of_nat i, "K-" ++ format_05d (Z.of_nat i))) (seq 1 n) /\
  clients_seq db = Z.of_nat n.

(** A fresh store after one save under the identifier [K-00100], chosen by
    the caller. *)
Definition db_supplied_identifier : database :=
  snd (save_client empty_database
         [("kundennummer", "K-00100"); ("name", "Erika Mustermann")] []).

(** Three records that leave the identifier to [save_client]. *)
Definition three_auto_records : list (dict * dict) :=
  [ ([("name", "Anna")], []);
    ([("name", "Bernd"); ("kundennummer", "")], [("Hund", "ja")]);
    ([("name", "Clara"); ("ort", "Kiel")], []) ].

(** Three records, the second under an identifier of the caller's, and the
    stores they leave when saved one after the other. *)
Definition record1 : dict * dict :=
  ([("name", "Anna Arndt"); ("ort", "Kiel"); ("pg", "2")],
   [("Hausarzt", "Dr. Beck"); ("Schluessel", "ja")]).
Definition record2 : dict * dict :=
  ([("kundennummer", "K-00100"); ("name", "Bernd Boll")], []).
Definition record3 : dict * dict :=
  ([("name", "Clara Clausen"); ("telefon", "0431 1234")], [("Hund", "ja")]).

Definition db1 : database := snd (save_client empty_database (fst record1) (snd record1)).
Definition db2 : database := snd (save_client db1 (fst record2) (snd record2)).
Definition db3 : database := snd (save_client db2 (fst record3) (snd record3)).

(** Reading hexadecimal text back into bytes, two digits a byte. *)
Fixpoint unhex (s : string) : list ascii :=
  match s with
  | String h (String l s') =>
      match hex_value h, hex_value l with
      | Some a, Some b => ascii_of_N (a * 16 + b) :: unhex s'
      | _, _ => []
      end
  | _ => []
  end.

(** A stand-in for the key derivation in the examples: the password, the
    salt and the number of rounds, one after the other. *)
Definition example_kdf (hash_name password salt_ : string) (iterations : Z)
  : list ascii :=
  list_ascii_of_string (password ++ ":" ++ salt_ ++ ":" ++ str_of_nonneg iterations).

(** A random source for the examples. *)
Definition example_random (i : nat) : ascii := ascii_of_nat (17 * i).

Definition db_alice : database :=
  snd (create_user example_kdf empty_database example_random "alice" "pw1").

(** The account [db_alice] holds. *)
Definition row_alice : user_row :=
  {| users_id := 1;
     username := "alice";
     password_hash :=
       _hash_password example_kdf "pw1" "00112233445566778899aabbccddeeff";
     salt := "00112233445566778899aabbccddeeff" |}.

(** A contract window with a company name set and a signature of three
    strokes, the last one a single point. *)
Definition contract_example : ContractWindow :=
  {| client := [ ("kundennummer", "K-00001"); ("name", "Anna Arndt");
                 ("strasse", "Kai 1"); ("plz", "24103"); ("ort", "Kiel");
                 ("geburtsdatum", "01.02.1940"); ("pg", "2");
                 ("versicherungsnummer", "A123"); ("pflegekasse", "AOK") ];
     company_name := "Pflegedienst Nord";
     logo_path := "";
     accent_color := "#1f2937";
     strokes := [ [(1, 2); (3, 4); (5, 6)]; [(10, 10); (12, 9)]; [(7, 8)] ] |}.

Definition world_empty : world :=
  {| w_db := empty_database; w_files := []; w_messages := [] |}.

(** ** The settings table *)

(** [INSERT INTO app_settings ... ON CONFLICT(key) DO UPDATE SET value =
    excluded.value]: the row that holds the key takes the new value where it
    stands, a new key is a new row. *)
Fixpoint upsert_setting (k : string) (v : option string)
    (rows : list (string * option string)) : list (string * option string) :=
  match rows with
  | [] => [(k, v)]
  | (k', v') :: rows' =>
      if (k' =? k)%string then (k', v) :: rows'
      else (k', v') :: upsert_setting k v rows'
  end.

(** [Database.save_setting] *)
Definition save_setting (db : database) (key value : string) : database :=
  {| users := users db;
     users_seq := users_seq db;
     clients := clients db;
     clients_seq := clients_seq db;
     app_settings := upsert_setting key (Some value) (app_settings db) |}.

(** [Database.load_setting]: the stored value of the row found, which is
    [None] for a [NULL], and the default when no row is found. *)
Definition load_setting (db : database) (key default : string) : option string :=
  match find (fun kv => (fst kv =? key)%string) (app_settings db) with
  | Some row => snd row
  | None => Some default
  end.

Definition DEFAULT_ACCENT : string := "#1f2937".

(** ** [str.strip()]

    White space in Python is the characters U+0009 to U+000D, U+001C to
    U+0020, U+0085, U+00A0, U+1680, U+2000 to U+200A, U+2028, U+2029, U+202F,
    U+205F and U+3000; the functions below read them in their UTF-8 bytes.
    In well-formed UTF-8 no character ends in bytes that begin another, so
    looking for the white space byte by byte finds the characters. *)
Definition ascii_space (c : ascii) : bool :=
  let n := N_of_ascii c in
  (((9 <=? n) && (n <=? 13)) || ((28 <=? n) && (n <=? 32)))%N.

(** U+0085 and U+00A0 *)
Definition space2 (c d : ascii) : bool :=
  let n := N_of_ascii d in
  ((N_of_ascii c =? 194) && ((n =? 133) || (n =? 160)))%N.

(** U+1680, U+2000 to U+200A, U+2028, U+2029, U+202F, U+205F, U+3000 *)
Definition space3 (c d e : ascii) : bool :=
  let c := N_of_ascii c in
  let d := N_of_ascii d in
  let e := N_of_ascii e in
  (((c =? 225) && (d =? 154) && (e =? 128)) ||
   ((c =? 226) && (d =? 128) &&
    (((128 <=? e) && (e <=? 138)) || (e =? 168) || (e =? 169) || (e =? 175))) ||
   ((c =? 226) && (d =? 129) && (e =? 159)) ||
   ((c =? 227) && (d =? 128) && (e =? 128)))%N.

Fixpoint lstrip (s : string) : string :=
  match s with
  | EmptyString => s
  | String c s1 =>
      if ascii_space c then lstrip s1
      else
        match s1 with
        | EmptyString => s
        | String d s2 =>
            if space2 c d then lstrip s2
            else
              match s2 with
              | EmptyString => s
              | String e s3 => if space3 c d e then lstrip s3 else s
              end
        end
  end.

(** The string is white space from end to end. *)
Fixpoint all_space (s : string) : bool :=
  match s with
  | EmptyString => true
  | String c s1 =>
      if ascii_space c then all_space s1
      else
        match s1 with
        | EmptyString => false
        | String d s2 =>
            if space2 c d then all_space s2
            else
              match s2 with
              | EmptyString => false
              | String e s3 => space3 c d e && all_space s3
              end
        end
  end.

Fixpoint rstrip (s : string) : string :=
  if all_space s then ""
  else
    match s with
    | EmptyString => ""
    | String c s' => String c (rstrip s')
    end.

Definition strip (s : string) : string := rstrip (lstrip s).

(** ** class SignaturePad *)

(** The strokes finished, the stroke in progress, and the segments on the
    canvas in the order they were drawn. *)
Record SignaturePad : Type := {
  pad_strokes : list (list (Z * Z));
  current_stroke : list (Z * Z);
  canvas_lines : list (Z * Z * Z * Z)
}.

(** A handler either returns, leaving a pad, or raises [IndexError]. *)
Inductive pad_outcome : Type :=
| Returns (pad : SignaturePad)
| IndexError.

(** [SignaturePad.__init__] *)
Definition SignaturePad_init : SignaturePad :=
  {| pad_strokes := []; current_stroke := []; canvas_lines := [] |}.

(** [SignaturePad._start], on [<ButtonPress-1>] at [(x, y)] *)
Definition _start (self : SignaturePad) (event : Z * Z) : SignaturePad :=
  {| pad_strokes := pad_strokes self;
     current_stroke := [event];
     canvas_lines := canvas_lines self |}.

(** [SignaturePad._draw], on [<B1-Motion>]: [self.current_stroke[-1]] raises
    on the empty list, before anything is drawn. *)
Definition _draw (self : SignaturePad) (event : Z * Z) : pad_outcome :=
  match rev (current_stroke self) with
  | [] => IndexError
  | last_point :: _ =>
      Returns
        {| pad_strokes := pad_strokes self;
           current_stroke := current_stroke self ++ [event];
           canvas_lines :=
             canvas_lines self ++
             [(fst last_point, snd last_point, fst event, snd event)] |}
  end.

(** [SignaturePad._end], on [<ButtonRelease-1>] *)
Definition _end (self : SignaturePad) : SignaturePad :=
  match current_stroke self with
  | [] => self
  | _ :: _ =>
      {| pad_strokes := pad_strokes self ++ [current_stroke self];
         current_stroke := [];
         canvas_lines := canvas_lines self |}
  end.

(** [SignaturePad.clear]: the canvas is emptied and the strokes are
    forgotten; the stroke in progress is left as it is. *)
Definition clear (self : SignaturePad) : SignaturePad :=
  {| pad_strokes := [];
     current_stroke := current_stroke self;
     canvas_lines := [] |}.

(** What the pointer sends to the pad. *)
Inductive pad_event : Type :=
| ButtonPress (at_ : Z * Z)
| Motion (at_ : Z * Z)
| ButtonRelease
| ClearButton.

Definition handle (self : SignaturePad) (ev : pad_event) : pad_outcome :=
  match ev with
  | ButtonPress p => Returns (_start self p)
  | Motion p => _draw self p
  | ButtonRelease => Returns (_end self)
  | ClearButton => Returns (clear self)
  end.

(** The events one after the other; a handler that raises leaves the pad as
    it was and the next event is handled all the same, as in the main loop
    of the toolkit. *)
Fixpoint handle_all (self : SignaturePad) (evs : list pad_event) : SignaturePad :=
  match evs with
  | [] => self
  | ev :: evs' =>
      match handle self ev with
      | Returns self' => handle_all self' evs'
      | IndexError => handle_all self evs'
      end
  end.

(** One stroke of the pen: the button goes down at a point, the pointer
    moves through others, the button goes up. *)
Definition gesture (points : (Z * Z) * list (Z * Z)) : list pad_event :=
  (ButtonPress (fst points) :: map Motion (snd points) ++ [ButtonRelease])%list.

(** The contract window with the strokes of its pad, as [_export_pdf] reads
    them through [self.signature_pad.strokes]. *)
Definition with_signature (self : ContractWindow) (pad : SignaturePad)
  : ContractWindow :=
  {| client := client self;
     company_name := company_name self;
     logo_path := logo_path self;
     accent_color := accent_color self;
     strokes := pad_strokes pad |}.

(** The segment of the canvas as [_export_pdf] places it on the page. *)
Definition on_page (y0 : Q) (seg : Z * Z * Z * Z) : pdf_op :=
  let '(x1, y1, x2, y2) := seg in
  line (50 + inject_Z x1) (y0 + inject_Z y1)
       (50 + inject_Z x2) (y0 + inject_Z y2).

(** ** class ClientApp

    The main window: the world outside, the branding values read at start,
    and of its widgets what the handlers read and write: the text of the
    form fields, the text of the extra field rows, the rows of the list and
    the row that has the focus, the contract windows opened. *)
Record ClientApp : Type := {
  app_world : world;
  app_accent_color : option string;
  app_company_name : option string;
  app_logo_path : option string;
  app_visible : bool;
  app_username : option string;
  title_text : string;
  form_vars : dict;
  extra_field_rows : list (string * string);
  tree : list (list string);
  tree_focus : option nat;
  contract_windows : list ContractWindow
}.

Definition with_world (self : ClientApp) (w : world) : ClientApp :=
  {| app_world := w;
     app_accent_color := app_accent_color self;
     app_company_name := app_company_name self;
     app_logo_path := app_logo_path self;
     app_visible := app_visible self;
     app_username := app_username self;
     title_text := title_text self;
     form_vars := form_vars self;
     extra_field_rows := extra_field_rows self;
     tree := tree self;
     tree_focus := tree_focus self;
     contract_windows := contract_windows self |}.

Definition with_db (self : ClientApp) (db : database) : ClientApp :=
  with_world self
    {| w_db := db;
       w_files := w_files (app_world self);
       w_messages := w_messages (app_world self) |}.

Definition with_form (self : ClientApp) (vars : dict)
    (rows : list (string * string)) : ClientApp :=
  {| app_world := app_world self;
     app_accent_color := app_accent_color self;
     app_company_name := app_company_name self;
     app_logo_path := app_logo_path self;
     app_visible := app_visible self;
     app_username := app_username self;
     title_text := title_text self;
     form_vars := vars;
     extra_field_rows := rows;
     tree := tree self;
     tree_focus := tree_focus self;
     contract_windows := contract_windows self |}.

Definition with_tree (self : ClientApp) (rows : list (list string))
    (focus : option nat) : ClientApp :=
  {| app_world := app_world self;
     app_accent_color := app_accent_color self;
     app_company_name := app_company_name self;
     app_logo_path := app_logo_path self;
     app_visible := app_visible self;
     app_username := app_username self;
     title_text := title_text self;
     form_vars := form_vars self;
     extra_field_rows := extra_field_rows self;
     tree := rows;
     tree_focus := focus;
     contract_windows := contract_windows self |}.

Definition app_db (self : ClientApp) : database := w_db (app_world self).

Definition app_messagebox (k : message_kind) (title text : string)
    (self : ClientApp) : ClientApp :=
  with_world self (messagebox k title text (app_world self)).

(** [ClientApp.__init__]: the three settings are read, the window is
    withdrawn until somebody has logged in. *)
Definition ClientApp_init (w : world) : ClientApp :=
  {| app_world := w;
     app_accent_color := load_setting (w_db w) "accent_color" DEFAULT_ACCENT;
     app_company_name := load_setting (w_db w) "company_name" "";
     app_logo_path := load_setting (w_db w) "logo_path" "";
     app_visible := false;
     app_username := None;
     title_text := "";
     form_vars := [];
     extra_field_rows := [];
     tree := [];
     tree_focus := None;
     contract_windows := [] |}.

(** How a value that may be [None] reaches a widget: as the text of
    [str(value)]. *)
Definition tk_str (v : option string) : string :=
  match v with
  | Some s => s
  | None => "None"
  end.

(** The seven columns of the list. *)
Definition columns : list string :=
  [ "kundennummer"; "name"; "plz"; "ort"; "telefon"; "pg"; "pflegekasse" ].

Definition tree_values (client_ : dict) : list string :=
  map (fun k => tk_str (dict_get k client_)) columns.

(** [ClientApp._load_clients]: the rows are deleted, none has the focus any
    more, and the clients are read and inserted in their order. *)
Definition _load_clients (self : ClientApp) : result unit * ClientApp :=
  let self := with_tree self [] None in
  match list_clients (app_db self) with
  | Raise e => (Raise e, self)
  | Ok clients_ => (Ok tt, with_tree self (map tree_values clients_) None)
  end.

(** A colour option as Tk takes it.  An option given as [None] is left out
    of the call; a text of [#] and three, six, nine or twelve hexadecimal
    digits is a colour on every platform.  Any other text is looked up among
    the colour names of the platform, and the widget is not made when the
    name is unknown: for these the model gives no answer. *)
Definition is_hex_digit (c : ascii) : bool :=
  let n := N_of_ascii c in
  ((48 <=? n) && (n <=? 57) || (65 <=? n) && (n <=? 70)
   || (97 <=? n) && (n <=? 102))%N.

Fixpoint all_hex_digits (s : string) : bool :=
  match s with
  | EmptyString => true
  | String c s' => is_hex_digit c && all_hex_digits s'
  end.

Definition tk_color (c : option string) : bool :=
  match c with
  | None => true
  | Some EmptyString => false
  | Some (String c digits) =>
      (c =? "#")%char && all_hex_digits digits &&
      existsb (Nat.eqb (String.length digits)) [3; 6; 9; 12]%nat
  end.

Definition color_by_name : exn :=
  NotModelled "a colour that Tk looks up by its name".

(** The dictionary [form_vars] of [_build_ui]. *)
Definition new_form_vars (kundennummer_ : string) : dict :=
  map (fun k => (k, if (k =? "kundennummer")%string then kundennummer_ else ""))
      fixed_fields.

(** [ClientApp._build_ui], as far as the state above goes: the title, a
    fresh form that shows the next identifier, the list filled from the
    store.  The heading is the first widget in the accent colour. *)
Definition _build_ui (self : ClientApp) : result unit * ClientApp :=
  let title :=
    if truthy (app_company_name self)
    then tk_str (app_company_name self) ++ " – Kundenverwaltung"
    else "Kundenverwaltung" in
  if negb (tk_color (app_accent_color self)) then (Raise color_by_name, self)
  else
  let self :=
    {| app_world := app_world self;
       app_accent_color := app_accent_color self;
       app_company_name := app_company_name self;
       app_logo_path := app_logo_path self;
       app_visible := app_visible self;
       app_username := app_username self;
       title_text := title;
       form_vars := new_form_vars (_next_kundennummer (app_db self));
       extra_field_rows := extra_field_rows self;
       tree := [];
       tree_focus := None;
       contract_windows := contract_windows self |} in
  _load_clients self.

(** [ClientApp.on_login_success] *)
Definition on_login_success (self : ClientApp) (username_ : string)
  : result unit * ClientApp :=
  let self :=
    {| app_world := app_world self;
       app_accent_color := app_accent_color self;
       app_company_name := app_company_name self;
       app_logo_path := app_logo_path self;
       app_visible := true;
       app_username := Some username_;
       title_text := title_text self;
       form_vars := form_vars self;
       extra_field_rows := extra_field_rows self;
       tree := tree self;
       tree_focus := tree_focus self;
       contract_windows := contract_windows self |} in
  _build_ui self.

(** [ClientApp._add_extra_field]: one more row, its name field holding the
    text [Feldname]; both fields are highlighted in the accent colour. *)
Definition _add_extra_field (self : ClientApp) : result unit * ClientApp :=
  if negb (tk_color (app_accent_color self)) then (Raise color_by_name, self)
  else
    (Ok tt,
     with_form self (form_vars self)
       (extra_field_rows self ++ [("Feldname", "")])).

(** The dictionary [extra_fields] of [_save_client]: a row whose name is
    blank is passed over, a name that comes again takes the later value. *)
Definition collect_extra_fields (rows : list (string * string)) : dict :=
  fold_left
    (fun extra row =>
       let name_ := strip (fst row) in
       let value := strip (snd row) in
       if truthy (Some name_) then dict_set name_ value extra else extra)
    rows [].

(** The form after a save: the next identifier, every other field empty. *)
Definition reset_form_vars (vars : dict) (kundennummer_ : string) : dict :=
  map (fun kv =>
         (fst kv,
          if (fst kv =? "kundennummer")%string then kundennummer_ else ""))
      vars.

(** [ClientApp._save_client] *)
Definition _save_client (self : ClientApp) : result unit * ClientApp :=
  let data := map (fun kv => (fst kv, strip (snd kv))) (form_vars self) in
  if negb (truthy (dict_get "name" data)) then
    (Ok tt,
     app_messagebox showwarning "Hinweis"
       "Bitte geben Sie mindestens den Namen des Kunden ein." self)
  else
    let extra_fields_ := collect_extra_fields (extra_field_rows self) in
    match save_client (app_db self) data extra_fields_ with
    | (Raise e, db') => (Raise e, with_db self db')
    | (Ok _, db') =>
        let self := with_db self db' in
        let self := app_messagebox showinfo "Gespeichert" "Kunde gespeichert." self in
        let self :=
          with_form self
            (reset_form_vars (form_vars self) (_next_kundennummer (app_db self)))
            [] in
        _load_clients self
    end.

(** A setting that is [None] where a text is wanted; the contract window
    reads these two only under [if], where [None] and the empty text go the
    same way. *)
Definition or_empty (v : option string) : string :=
  match v with
  | Some s => s
  | None => ""
  end.

(** [ClientApp._open_contract_window]; the contract window draws its
    heading in the accent colour. *)
Definition _open_contract_window (self : ClientApp) : result unit * ClientApp :=
  match tree_focus self with
  | None =>
      (Ok tt,
       app_messagebox showwarning "Hinweis"
         "Bitte wählen Sie einen Kunden aus." self)
  | Some selected =>
      let values := nth selected (tree self) [] in
      let kundennummer_ := nth 0 values "" in
      match list_clients (app_db self) with
      | Raise e => (Raise e, self)
      | Ok clients_ =>
          match find (fun c => match dict_get "kundennummer" c with
                               | Some kn => (kn =? kundennummer_)%string
                               | None => false
                               end) clients_ with
          | None =>
              (Ok tt, app_messagebox showerror "Fehler" "Kunde nicht gefunden." self)
          | Some [] =>
              (Ok tt, app_messagebox showerror "Fehler" "Kunde nicht gefunden." self)
          | Some client_ =>
              if negb (tk_color (app_accent_color self)) then
                (Raise color_by_name, self)
              else
              (Ok tt,
               {| app_world := app_world self;
                  app_accent_color := app_accent_color self;
                  app_company_name := app_company_name self;
                  app_logo_path := app_logo_path self;
                  app_visible := app_visible self;
                  app_username := app_username self;
                  title_text := title_text self;
                  form_vars := form_vars self;
                  extra_field_rows := extra_field_rows self;
                  tree := tree self;
                  tree_focus := tree_focus self;
                  contract_windows :=
                    contract_windows self ++
                    [{| client := client_;
                        company_name := or_empty (app_company_name self);
                        logo_path := or_empty (app_logo_path self);
                        accent_color := or_empty (app_accent_color self);
                        strokes := [] |}] |})
          end
      end
  end.

(** ** class AuthWindow *)

Record AuthWindow : Type := {
  username_var : string;
  password_var : string;
  auth_destroyed : bool
}.

Definition destroy_auth (self : AuthWindow) : AuthWindow :=
  {| username_var := username_var self;
     password_var := password_var self;
     auth_destroyed := true |}.

Section Authentication.

Variable pbkdf2_hmac : string -> string -> string -> Z -> list ascii.

(** [AuthWindow._handle_login] *)
Definition _handle_login (self : AuthWindow) (master : ClientApp)
  : result unit * (AuthWindow * ClientApp) :=
  let username_ := strip (username_var self) in
  let password := strip (password_var self) in
  if negb (truthy (Some username_)) || negb (truthy (Some password)) then
    (Ok tt,
     (self,
      app_messagebox showwarning "Hinweis"
        "Bitte Benutzername und Passwort eingeben." master))
  else if validate_user pbkdf2_hmac (app_db master) username_ password then
    match on_login_success master username_ with
    | (Raise e, master') => (Raise e, (self, master'))
    | (Ok _, master') => (Ok tt, (destroy_auth self, master'))
    end
  else
    (Ok tt,
     (self, app_messagebox showerror "Fehler" "Ungültige Zugangsdaten." master)).

(** [AuthWindow._handle_register]; [urandom] is the random source at the
    time of the call. *)
Definition _handle_register (self : AuthWindow) (master : ClientApp)
    (urandom : nat -> ascii) : result unit * (AuthWindow * ClientApp) :=
  let username_ := strip (username_var self) in
  let password := strip (password_var self) in
  if negb (truthy (Some username_)) || negb (truthy (Some password)) then
    (Ok tt,
     (self,
      app_messagebox showwarning "Hinweis"
        "Bitte Benutzername und Passwort eingeben." master))
  else
    match create_user pbkdf2_hmac (app_db master) urandom username_ password with
    | (Raise e, db') => (Raise e, (self, with_db master db'))
    | (Ok created, db') =>
        let master := with_db master db' in
        if created then
          (Ok tt,
           (self,
            app_messagebox showinfo "Erfolg"
              "Konto erstellt. Sie können sich jetzt anmelden." master))
        else
          (Ok tt,
           (self,
            app_messagebox showerror "Fehler"
              "Benutzername bereits vergeben." master))
    end.

End Authentication.

(** ** class SettingsWindow *)

Record SettingsWindow : Type := {
  company_var : string;
  logo_var : string;
  color_var : string
}.

(** [SettingsWindow._build_ui]: the three fields show what is stored; a
    [StringVar] given [None] starts empty.  The fields are highlighted in
    the accent colour the main window holds. *)
Definition SettingsWindow_init (master : ClientApp) : result SettingsWindow :=
  if negb (tk_color (app_accent_color master)) then Raise color_by_name
  else
    Ok {| company_var :=
            or_empty (load_setting (app_db master) "company_name" "");
          logo_var := or_empty (load_setting (app_db master) "logo_path" "");
          color_var :=
            or_empty
              (load_setting (app_db master) "accent_color" DEFAULT_ACCENT) |}.

(** [SettingsWindow._pick_logo]; [file_path] is what the file dialog
    returned. *)
Definition _pick_logo (self : SettingsWindow) (file_path : string)
  : SettingsWindow :=
  if truthy (Some file_path) then
    {| company_var := company_var self;
       logo_var := file_path;
       color_var := color_var self |}
  else self.

(** [SettingsWindow._save] *)
Definition _save (self : SettingsWindow) (master : ClientApp) : ClientApp :=
  let db := app_db master in
  let db := save_setting db "company_name" (strip (company_var self)) in
  let db := save_setting db "logo_path" (strip (logo_var self)) in
  let db := save_setting db "accent_color"
              (py_or (Some (strip (color_var self))) DEFAULT_ACCENT) in
  let master := with_db master db in
  let master :=
    {| app_world := app_world master;
       app_accent_color := load_setting db "accent_color" DEFAULT_ACCENT;
       app_company_name := load_setting db "company_name" "";
       app_logo_path := load_setting db "logo_path" "";
       app_visible := app_visible master;
       app_username := app_username master;
       title_text := title_text master;
       form_vars := form_vars master;
       extra_field_rows := extra_field_rows master;
       tree := tree master;
       tree_focus := tree_focus master;
       contract_windows := contract_windows master |} in
  app_messagebox showinfo "Gespeichert"
    "Branding aktualisiert. Starten Sie neu, um Farben vollständig zu übernehmen."
    master.

(** ** Vocabulary of the further statements *)

(** What the schema and [save_client] keep true of a client table: the two
    [UNIQUE] columns hold no value twice, no identifier is empty, and the
    table can be listed. *)
Definition store_ok (db : database) : Prop :=
  NoDup (map kundennummer (clients db)) /\
  NoDup (map clients_id (clients db)) /\
  Forall (fun row => kundennummer row <> "") (clients db) /\
  exists listed : list dict, list_clients db = Ok listed.

(** A database with two settings stored. *)
Definition db_branded : database :=
  save_setting (save_setting empty_database "company_name" "Pflegedienst Nord")
    "accent_color" "#000000".

(** A fresh store after one save under the identifier [K-00002], chosen by
    the caller: the identifier the next automatic save will ask for. *)
Definition db_taken : database :=
  snd (save_client empty_database
         [("kundennummer", "K-00002"); ("name", "Erika Mustermann")] []).


(** The segments between the neighbouring points of a stroke. *)
Fixpoint segments (points : list (Z * Z)) : list (Z * Z * Z * Z) :=
  match points with
  | [] => []
  | p :: rest =>
      match rest with
      | [] => []
      | q :: _ => (fst p, snd p, fst q, snd q) :: segments rest
      end
  end.

(** What a user does on the pad: a stroke from a point through others, or
    a press of the button that clears it. *)
Inductive pen_action : Type :=
| Stroke (start : Z * Z) (through : list (Z * Z))
| Clear.

Definition pen_events (actions : list pen_action) : list pad_event :=
  flat_map (fun a =>
              match a with
              | Stroke start through => gesture (start, through)
              | Clear => [ClearButton]
              end) actions.

(** The strokes the actions leave: those since the last clearing. *)
Fixpoint pen_strokes (done : list (list (Z * Z))) (actions : list pen_action)
  : list (list (Z * Z)) :=
  match actions with
  | [] => done
  | Stroke start through :: actions' =>
      pen_strokes (done ++ [start :: through]) actions'
  | Clear :: actions' => pen_strokes [] actions'
  end.

(** The height at which [_export_pdf] has arrived when it draws the
    strokes. *)
Definition signature_base : Q :=
  (snd A4 - 60 - 20 - 16 - 16 - 16 - 16 - 16 - 16 - 30 - 40 - 10)%Q.

(** A visible ASCII character, and a string of such. *)
Definition plain (c : ascii) : bool :=
  ((33 <=? N_of_ascii c) && (N_of_ascii c <=? 126))%N.

Fixpoint all_plain (s : string) : bool :=
  match s with
  | EmptyString => true
  | String c s' => plain c && all_plain s'
  end.

(** The main window in step with a store that holds [n] clients, all under
    identifiers [save_client] assigned: the identifier field, which the
    form keeps disabled, shows the next identifier, and the list shows what
    the store lists. *)
Definition form_ready (n : nat) (self : ClientApp) : Prop :=
  auto_assigned n (app_db self) /\
  dict_get "kundennummer" (form_vars self) =
  Some (_next_kundennummer (app_db self)) /\
  exists listed : list dict,
    list_clients (app_db self) = Ok listed /\
    tree self = map tree_values listed.

(** The form filled in for the examples: a name with white space around
    it, one extra field and a row added and left as it came. *)
Definition app_example : ClientApp :=
  let self := snd (on_login_success (ClientApp_init world_empty) "alice") in
  with_form self
    (dict_set "ort" "Kiel" (dict_set "name" "  Anna Arndt " (form_vars self)))
    [(" Hund ", " ja"); ("", "vergessen"); ("Hund", "nein"); ("Feldname", "")].

(** The main window after two clients were saved from the form, with the
    older of the two rows selected in the list. *)
Definition app_two_clients : ClientApp :=
  let app1 := snd (_save_client app_example) in
  let app2 :=
    snd (_save_client
           (with_form app1 (dict_set "name" "Bernd Brot" (form_vars app1)) [])) in
  with_tree app2 (tree app2) (Some 1%nat).

(** * Theorems *)

(** ** Decimal numerals *)

Lemma digit_value_digit_char (d : Z) :
  0 <= d < 10 -> digit_value (digit_char d) = Some d.
Proof.
  intros Hd. unfold digit_value, digit_char.
  rewrite N_ascii_embedding by lia.
  replace ((48 <=? 48 + Z.to_N d)%N && (48 + Z.to_N d <=? 57)%N) with true.
  - f_equal. lia.
  - symmetry. apply andb_true_intro. split; apply N.leb_le; lia.
Qed.

Lemma string_length_app (s t : string) :
  String.length (s ++ t) = (String.length s + String.length t)%nat.
Proof. induction s; simpl; congruence. Qed.

Lemma length_repeat_char (c : ascii) (k : nat) :
  String.length (repeat_char c k) = k.
Proof. induction k; simpl; congruence. Qed.

Lemma decimal_value_from_zeros (k : nat) (s : string) :
  decimal_value_from 0 (repeat_char "0" k ++ s) = decimal_value_from 0 s.
Proof. induction k; simpl; auto. Qed.

(** The digits of [n] are [k] characters that read back as [n], where [k]
    is the number of decimal digits of [n]. *)
Lemma decimal_digits_spec (fuel : nat) :
  forall (n : Z) (acc : string),
    0 <= n < 2 ^ Z.of_nat fuel -> (1 <= fuel)%nat ->
    exists k : nat,
      (1 <= k)%nat /\ n < 10 ^ Z.of_nat k /\
      (10 ^ (Z.of_nat k - 1) <= n \/ k = 1%nat) /\
      String.length (decimal_digits fuel n acc) = (k + String.length acc)%nat /\
      forall a, decimal_value_from a (decimal_digits fuel n acc) =
                decimal_value_from (a * 10 ^ Z.of_nat k + n) acc.
Proof.
  induction fuel as [|fuel IH]; intros n acc Hn Hfuel; [lia|].
  simpl. destruct (Z.eqb_spec (n / 10) 0) as [Hq|Hq].
  - assert (n < 10) by (apply Z.div_small_iff in Hq; lia).
    exists 1%nat. repeat split; auto; try lia.
    intros a. cbn [decimal_value_from].
    rewrite digit_value_digit_char by (apply Z.mod_pos_bound; lia).
    rewrite Z.mod_small by lia. f_equal.
    change (Z.of_nat 1) with 1. rewrite Z.pow_1_r. lia.
  - assert (Hq1 : 1 <= n / 10) by (pose proof (Z.div_pos n 10); lia).
    assert (Hq2 : n / 10 < 2 ^ Z.of_nat fuel).
    { apply Z.div_lt_upper_bound; [lia|].
      rewrite Nat2Z.inj_succ, Z.pow_succ_r in Hn by lia. lia. }
    assert (Hf : (1 <= fuel)%nat).
    { destruct fuel; [simpl in Hq2; lia | lia]. }
    destruct (IH (n / 10) (String (digit_char (n mod 10)) acc)
                 (conj (Z.le_trans _ _ _ Z.le_0_1 Hq1) Hq2) Hf)
      as (k & Hk & Hlt & Hge & Hlen & Hval).
    assert (Hpow : 10 ^ Z.of_nat (S k) = 10 * 10 ^ Z.of_nat k)
      by (rewrite Nat2Z.inj_succ, Z.pow_succ_r by lia; reflexivity).
    assert (Hpow' : 10 ^ Z.of_nat k = 10 * 10 ^ (Z.of_nat k - 1)).
    { rewrite <- Z.pow_succ_r by lia. f_equal. lia. }
    pose proof (Z.div_mod n 10 ltac:(lia)) as Hdm.
    pose proof (Z.mod_pos_bound n 10 ltac:(lia)) as Hmod.
    exists (S k). repeat split.
    + lia.
    + rewrite Hpow. lia.
    + left. replace (Z.of_nat (S k) - 1) with (Z.of_nat k) by lia.
      destruct Hge as [Hge | ->].
      * rewrite Hpow'. lia.
      * simpl. lia.
    + rewrite Hlen. simpl. lia.
    + intros a. rewrite Hval. cbn [decimal_value_from].
      rewrite digit_value_digit_char by assumption.
      f_equal. rewrite Hpow. lia.
Qed.

Lemma str_of_nonneg_spec (n : Z) :
  0 <= n ->
  exists k : nat,
    (1 <= k)%nat /\ n < 10 ^ Z.of_nat k /\
    (10 ^ (Z.of_nat k - 1) <= n \/ k = 1%nat) /\
    String.length (str_of_nonneg n) = k /\
    decimal_value_from 0 (str_of_nonneg n) = Some n.
Proof.
  intros Hn. unfold str_of_nonneg.
  assert (Hfuel : 0 <= n < 2 ^ Z.of_nat (S (Z.to_nat (Z.log2 n)))).
  { rewrite Nat2Z.inj_succ, Z2Nat.id by apply Z.log2_nonneg.
    destruct (Z.eq_dec n 0) as [->|]; [simpl; lia|].
    pose proof (Z.log2_spec n ltac:(lia)). lia. }
  destruct (decimal_digits_spec _ n "" Hfuel ltac:(lia))
    as (k & Hk & Hlt & Hge & Hlen & Hval).
  exists k. split; [|split; [|split; [|split]]]; auto.
  rewrite Hlen. simpl. lia.
Qed.

Lemma decimal_value_digits (s : string) (v : Z) :
  s <> "" -> decimal_value_from 0 s = Some v -> decimal_value s = Some v.
Proof.
  destruct s as [|c s]; [congruence|]. intros _ H.
  unfold decimal_value. destruct (Ascii.eqb_spec c "-") as [->|]; [|exact H].
  simpl in H. discriminate.
Qed.

Lemma zfill_nonneg (w : nat) (n : Z) :
  0 <= n ->
  zfill w (str_of_nonneg n) <> "" /\
  decimal_value_from 0 (zfill w (str_of_nonneg n)) = Some n /\
  (w <= String.length (zfill w (str_of_nonneg n)))%nat /\
  ((1 <= w)%nat -> n < 10 ^ Z.of_nat w ->
   String.length (zfill w (str_of_nonneg n)) = w).
Proof.
  intros Hn. destruct (str_of_nonneg_spec n Hn) as (k & Hk & Hlt & Hge & Hlen & Hval).
  unfold zfill. rewrite decimal_value_from_zeros, string_length_app, length_repeat_char, Hlen.
  repeat split; auto.
  - intros H. apply (f_equal String.length) in H.
    rewrite string_length_app, length_repeat_char, Hlen in H. simpl in H. lia.
  - lia.
  - intros Hw1 Hw. assert (k <= w)%nat; [|lia].
    destruct Hge as [Hge | ->]; [|assumption].
    destruct (Nat.le_gt_cases k w) as [|Hgt]; [assumption|exfalso].
    assert (10 ^ Z.of_nat w <= 10 ^ (Z.of_nat k - 1))
      by (apply Z.pow_le_mono_r; lia).
    lia.
Qed.

(** The text [05d] prints reads back as the number printed. *)
Lemma decimal_value_format_05d (n : Z) : decimal_value (format_05d n) = Some n.
Proof.
  unfold format_05d. destruct (Z.ltb_spec n 0) as [Hneg|Hpos].
  - destruct (zfill_nonneg 4 (- n) ltac:(lia)) as (Hne & Hval & _).
    simpl. destruct (zfill 4 (str_of_nonneg (- n))) eqn:E; [congruence|].
    rewrite Hval. simpl. f_equal. lia.
  - destruct (zfill_nonneg 5 n Hpos) as (Hne & Hval & _).
    apply decimal_value_digits; assumption.
Qed.

Lemma format_05d_inj (n m : Z) : format_05d n = format_05d m -> n = m.
Proof.
  intros H. apply (f_equal decimal_value) in H.
  rewrite !decimal_value_format_05d in H. congruence.
Qed.

Lemma length_format_05d (n : Z) :
  (5 <= String.length (format_05d n))%nat /\
  (0 <= n < 100000 -> String.length (format_05d n) = 5%nat).
Proof.
  unfold format_05d. destruct (Z.ltb_spec n 0) as [Hneg|Hpos].
  - destruct (zfill_nonneg 4 (- n) ltac:(lia)) as (_ & _ & Hlen & _).
    split; [|lia]. simpl. lia.
  - destruct (zfill_nonneg 5 n Hpos) as (_ & _ & Hlen & Hexact).
    split; [assumption|]. intros H. apply Hexact; [lia|]. simpl. lia.
Qed.

(** ** Tables *)

Lemma select_max_app {R : Type} (col : R -> Z) (rows : list R) (r : R) :
  select_max col (rows ++ [r]) =
  Some (match select_max col rows with
        | None => col r
        | Some m => Z.max m (col r)
        end).
Proof.
  induction rows as [|r' rows IH]; simpl; [reflexivity|].
  rewrite IH. destruct (select_max col rows); f_equal; lia.
Qed.

Lemma select_max_map {R : Type} (col : R -> Z) (rows : list R) :
  select_max col rows = select_max (fun z => z) (map col rows).
Proof.
  induction rows as [|r rows IH]; simpl; [reflexivity|]. now rewrite IH.
Qed.

Lemma select_max_bound {R : Type} (col : R -> Z) (rows : list R) (m : Z) :
  select_max col rows = Some m ->
  In m (map col rows) /\ forall r, In r rows -> col r <= m.
Proof.
  revert m. induction rows as [|r rows IH]; simpl; intros m H; [discriminate|].
  destruct (select_max col rows) as [m'|] eqn:E.
  - destruct (IH m' eq_refl) as [Hin Hle]. injection H as <-. split.
    + destruct (Z.max_spec (col r) m') as [[_ ->]|[_ ->]]; auto.
    + intros r0 [<-|Hr0]; [lia|]. specialize (Hle r0 Hr0). lia.
  - injection H as <-. destruct rows; [|simpl in E; destruct (select_max col rows); discriminate].
    split; auto. intros r0 [<-|[]]. lia.
Qed.

Lemma select_max_seq (n : nat) :
  select_max (fun z => z) (map Z.of_nat (seq 1 n)) =
  match n with O => None | S _ => Some (Z.of_nat n) end.
Proof.
  induction n as [|n IH]; [reflexivity|].
  rewrite seq_S, map_app. simpl map. rewrite select_max_app, IH.
  destruct n; f_equal; lia.
Qed.

Lemma py_or_falsy (v : option string) (d : string) :
  truthy v = false -> py_or v d = d.
Proof.
  destruct v as [s|]; simpl; [|reflexivity].
  destruct (s =? "")%string; simpl; [reflexivity|discriminate].
Qed.

Lemma existsb_kundennummer (kn : string) (rows : list client_row) :
  existsb (fun r => (kundennummer r =? kn)%string) rows = true <->
  In kn (map kundennummer rows).
Proof.
  rewrite existsb_exists, in_map_iff. split; intros (r & H1 & H2); exists r.
  - apply String.eqb_eq in H2. auto.
  - split; [assumption|]. apply String.eqb_eq. auto.
Qed.

(** ** Identifiers of a store filled by [save_client] alone *)

Lemma auto_assigned_columns (n : nat) (db : database) :
  auto_assigned n db ->
  map clients_id (clients db) = map Z.of_nat (seq 1 n) /\
  map kundennummer (clients db) =
  map (fun i => "K-" ++ format_05d (Z.of_nat i)) (seq 1 n).
Proof.
  intros [Hrows _]. split.
  - apply (f_equal (map fst)) in Hrows. rewrite !map_map in Hrows. exact Hrows.
  - apply (f_equal (map snd)) in Hrows. rewrite !map_map in Hrows. exact Hrows.
Qed.

Lemma auto_assigned_max (n : nat) (db : database) :
  auto_assigned n db ->
  select_max clients_id (clients db) =
  match n with O => None | S _ => Some (Z.of_nat n) end.
Proof.
  intros Hauto. destruct (auto_assigned_columns n db Hauto) as [Hids _].
  now rewrite select_max_map, Hids, select_max_seq.
Qed.

Lemma auto_assigned_next (n : nat) (db : database) :
  auto_assigned n db ->
  _next_kundennummer db = "K-" ++ format_05d (Z.of_nat n + 1).
Proof.
  intros Hauto. unfold _next_kundennummer.
  rewrite (auto_assigned_max n db Hauto).
  destruct n; [reflexivity|]. unfold py_or_int.
  destruct (Z.eqb_spec (Z.of_nat (S n)) 0); [lia|reflexivity].
Qed.

Lemma auto_assigned_save (n : nat) (db : database) (data extra : dict) :
  auto_assigned n db -> auto_identifier (data, extra) ->
  exists db', save_client db data extra = (Ok tt, db') /\
              auto_assigned (S n) db'.
Proof.
  intros Hauto Hdata. pose proof (auto_assigned_next n db Hauto) as Hnext.
  pose proof (auto_assigned_max n db Hauto) as Hmax.
  destruct (auto_assigned_columns n db Hauto) as [_ Hkns].
  destruct Hauto as [Hrows Hseq]. unfold save_client.
  rewrite py_or_falsy by exact Hdata. rewrite Hnext.
  unfold insert_client. cbn [kundennummer row_of_data].
  destruct (existsb _ (clients db)) eqn:Hdup.
  - exfalso. apply existsb_kundennummer in Hdup.
    rewrite Hkns in Hdup. apply in_map_iff in Hdup.
    destruct Hdup as (i & Hi & Hin). apply in_seq in Hin.
    injection Hi as Hi. apply format_05d_inj in Hi. lia.
  - eexists. split; [reflexivity|]. unfold auto_assigned, append_client, with_rowid.
    cbn [clients clients_seq clients_id kundennummer].
    assert (Hid : next_rowid clients_id (clients db) (clients_seq db)
                  = Z.of_nat (S n)).
    { unfold next_rowid. rewrite Hmax, Hseq. destruct n; lia. }
    rewrite Hid. split; [|reflexivity].
    rewrite map_app, Hrows, seq_S, map_app.
    cbn [map clients_id kundennummer row_of_data].
    replace (Z.of_nat (1 + n)) with (Z.of_nat n + 1) by lia.
    replace (Z.of_nat (S n)) with (Z.of_nat n + 1) by lia. reflexivity.
Qed.

Lemma auto_assigned_saves (records : list (dict * dict)) :
  forall (n : nat) (db : database),
    auto_assigned n db -> Forall auto_identifier records ->
    exists db', save_clients db records = (Ok tt, db') /\
                auto_assigned (n + List.length records) db'.
Proof.
  induction records as [|[data extra] records IH]; intros n db Hauto Hall.
  - exists db. rewrite Nat.add_0_r. split; [reflexivity|assumption].
  - inversion Hall as [|? ? Hhd Htl]; subst.
    destruct (auto_assigned_save n db data extra Hauto Hhd) as (db1 & Hsave & Hauto1).
    destruct (IH (S n) db1 Hauto1 Htl) as (db' & Hsaves & Hauto').
    exists db'. simpl. rewrite Hsave. split; [assumption|].
    now rewrite Nat.add_succ_r.
Qed.

Lemma auto_assigned_empty : auto_assigned 0 empty_database.
Proof. split; reflexivity. Qed.

Lemma highest_suffix_seq (n : nat) (b : Z) :
  0 <= b ->
  fold_right
    (fun kn m => match numeric_suffix kn with
                 | Some v => Z.max v m
                 | None => m
                 end)
    b (map (fun i => "K-" ++ format_05d (Z.of_nat i)) (seq 1 n)) =
  Z.max (Z.of_nat n) b.
Proof.
  revert b. induction n as [|n IH]; intros b Hb; [simpl; lia|].
  rewrite seq_S, map_app, fold_right_app. cbn [map fold_right].
  replace (numeric_suffix ("K-" ++ format_05d (Z.of_nat (1 + n))))
    with (Some (Z.of_nat (1 + n)))
    by (symmetry; apply decimal_value_format_05d).
  rewrite IH by lia. lia.
Qed.

Lemma auto_assigned_highest_suffix (n : nat) (db : database) :
  auto_assigned n db -> highest_suffix db = Z.of_nat n.
Proof.
  intros Hauto. destruct (auto_assigned_columns n db Hauto) as [_ Hkns].
  unfold highest_suffix.
  replace (Z.of_nat n) with (Z.max (Z.of_nat n) 0) by lia.
  rewrite <- (highest_suffix_seq n 0), <- Hkns by lia.
  clear. induction (clients db) as [|r rows IH]; simpl; [reflexivity|].
  now rewrite IH.
Qed.

(** ** The next identifier *)

(** C1, as amended: [_next_kundennummer] returns [K-] followed by the decimal
    numeral, zero-padded to at least five digits (exactly five below
    100000), of one more than the highest rowid of the client table, and
    [K-00001] when the table is empty.  On a store filled from the empty one
    by saves that leave the identifier to [save_client], that is one more
    than the highest numeric suffix stored. *)
Theorem next_kundennummer_rowid (db : database) :
  (clients db = [] -> _next_kundennummer db = "K-00001") /\
  (forall m : Z,
     select_max clients_id (clients db) = Some m -> 0 < m ->
     exists digits : string,
       _next_kundennummer db = "K-" ++ digits /\
       decimal_value digits = Some (m + 1) /\
       (5 <= String.length digits)%nat /\
       (m + 1 < 100000 -> String.length digits = 5%nat)) /\
  (forall records : list (dict * dict),
     Forall auto_identifier records ->
     save_clients empty_database records = (Ok tt, db) ->
     _next_kundennummer db = spec_nextIdentifier db).
Proof.
  split; [|split].
  - intros Hrows. unfold _next_kundennummer. rewrite Hrows. reflexivity.
  - intros m Hmax Hm. exists (format_05d (m + 1)). split; [|split; [|split]].
    + unfold _next_kundennummer. rewrite Hmax. unfold py_or_int.
      destruct (Z.eqb_spec m 0); [lia|reflexivity].
    + apply decimal_value_format_05d.
    + apply length_format_05d.
    + intros Hlt. apply length_format_05d. lia.
  - intros records Hall Hsaves.
    destruct (auto_assigned_saves records 0 empty_database
                auto_assigned_empty Hall) as (db' & Hsaves' & Hauto).
    rewrite Hsaves in Hsaves'. injection Hsaves' as <-.
    rewrite (auto_assigned_next _ _ Hauto). unfold spec_nextIdentifier.
    rewrite (auto_assigned_highest_suffix _ _ Hauto). unfold format_05d.
    destruct (Z.ltb_spec (Z.of_nat (0 + List.length records) + 1) 0);
      [lia|reflexivity].
Qed.

Lemma next_kundennummer_rowid_witness :
  _next_kundennummer empty_database = "K-00001" /\
  (select_max clients_id (clients db_supplied_identifier) = Some 1 /\
   exists digits : string,
     _next_kundennummer db_supplied_identifier = "K-" ++ digits /\
     decimal_value digits = Some (1 + 1) /\
     (5 <= String.length digits)%nat /\
     (1 + 1 < 100000 -> String.length digits = 5%nat)) /\
  _next_kundennummer (snd (save_clients empty_database three_auto_records))
  = spec_nextIdentifier (snd (save_clients empty_database three_auto_records)).
Proof.
  split; [|split; [split|]].
  - apply (proj1 (next_kundennummer_rowid empty_database)). reflexivity.
  - reflexivity.
  - apply (proj1 (proj2 (next_kundennummer_rowid db_supplied_identifier)) 1);
      [reflexivity | lia].
  - apply (proj2 (proj2 (next_kundennummer_rowid
                           (snd (save_clients empty_database three_auto_records))))
             three_auto_records).
    + repeat constructor.
    + reflexivity.
Defined.

(** C1, as stated, fails once an identifier was supplied by the caller:
    after one save under [K-00100] the table holds the rowid 1 and the
    suffix 100; the code answers [K-00002], the rule of the specification
    [K-00101]. *)
Lemma next_kundennummer_not_highest_suffix :
  save_client empty_database
    [("kundennummer", "K-00100"); ("name", "Erika Mustermann")] []
    = (Ok tt, db_supplied_identifier) /\
  _next_kundennummer db_supplied_identifier = "K-00002" /\
  spec_nextIdentifier db_supplied_identifier = "K-00101" /\
  _next_kundennummer db_supplied_identifier
    <> spec_nextIdentifier db_supplied_identifier.
Proof.
  split; [reflexivity|]. split; [reflexivity|]. split; [reflexivity|].
  vm_compute. discriminate.
Qed.

(** C8: on the empty store the next identifier is [K-00001]; [N] saves that
    leave the identifier to [save_client] all succeed, and the next
    identifier is then [K-] and [N + 1] zero-padded to five digits. *)
Theorem next_kundennummer_after_auto_saves (records : list (dict * dict)) :
  Forall auto_identifier records ->
  _next_kundennummer (_ensure_db None) = "K-00001" /\
  exists db : database,
    save_clients (_ensure_db None) records = (Ok tt, db) /\
    List.length (clients db) = List.length records /\
    exists digits : string,
      _next_kundennummer db = "K-" ++ digits /\
      digits = zfill 5 (str_of_nonneg (Z.of_nat (List.length records) + 1)) /\
      decimal_value digits = Some (Z.of_nat (List.length records) + 1) /\
      (5 <= String.length digits)%nat /\
      (Z.of_nat (List.length records) + 1 < 100000 ->
       String.length digits = 5%nat).
Proof.
  intros Hall. split; [reflexivity|].
  destruct (auto_assigned_saves records 0 empty_database
              auto_assigned_empty Hall) as (db & Hsaves & Hauto).
  simpl in Hauto. exists db. split; [assumption|]. split.
  - destruct (auto_assigned_columns _ _ Hauto) as [Hids _].
    apply (f_equal (@List.length Z)) in Hids.
    now rewrite !length_map, length_seq in Hids.
  - exists (format_05d (Z.of_nat (List.length records) + 1)).
    split; [exact (auto_assigned_next _ _ Hauto)|]. split; [|split; [|split]].
    + unfold format_05d.
      destruct (Z.ltb_spec (Z.of_nat (List.length records) + 1) 0);
        [lia|reflexivity].
    + apply decimal_value_format_05d.
    + apply length_format_05d.
    + intros Hlt. apply length_format_05d. lia.
Qed.

Lemma next_kundennummer_after_auto_saves_witness :
  Forall auto_identifier three_auto_records /\
  exists db : database,
    save_clients empty_database three_auto_records = (Ok tt, db) /\
    _next_kundennummer db = "K-00004".
Proof.
  assert (Hall : Forall auto_identifier three_auto_records)
    by (repeat constructor).
  split; [exact Hall|].
  destruct (next_kundennummer_after_auto_saves three_auto_records Hall)
    as (_ & db & Hsaves & _ & digits & Hnext & Hdigits & _).
  exists db. split; [exact Hsaves|]. rewrite Hnext, Hdigits. reflexivity.
Defined.

(** ** JSON: what [json.dumps] writes, [json.loads] reads back *)

Lemma append_assoc (s t u : string) : ((s ++ t) ++ u = s ++ (t ++ u))%string.
Proof. induction s; simpl; congruence. Qed.

Lemma scanstring_escape_char (c : ascii) (tail : string) :
  scanstring (escape_char c ++ tail) =
  ('(str, after) <- scanstring tail ;; Ok (String c str, after)).
Proof. destruct c as [[] [] [] [] [] [] [] []]; reflexivity. Qed.

Lemma scanstring_escape_string (s rest : string) :
  scanstring (escape_string s ++ String dquote rest) = Ok (s, rest).
Proof.
  induction s as [|c s IH]; [reflexivity|].
  cbn [escape_string]. rewrite append_assoc, scanstring_escape_char, IH.
  reflexivity.
Qed.

Lemma dict_set_fresh (k v : string) (d : dict) :
  ~ In k (dict_keys d) -> dict_set k v d = (d ++ [(k, v)])%list.
Proof.
  induction d as [|[k' v'] d IH]; simpl; intros Hk; [reflexivity|].
  destruct (String.eqb_spec k' k) as [->|_]; [tauto|].
  rewrite IH by tauto. reflexivity.
Qed.

Lemma dict_update_fresh (e d : dict) :
  NoDup (dict_keys d ++ dict_keys e) -> dict_update d e = (d ++ e)%list.
Proof.
  revert d. induction e as [|[k v] e IH]; intros d Hnd; simpl.
  - now rewrite app_nil_r.
  - unfold dict_update in *. simpl.
    assert (Hk : ~ In k (dict_keys d)).
    { apply NoDup_remove_2 in Hnd. intros Hin. apply Hnd.
      apply in_or_app. now left. }
    rewrite dict_set_fresh by exact Hk. rewrite IH.
    + now rewrite <- app_assoc.
    + unfold dict_keys in *. rewrite map_app, <- app_assoc. exact Hnd.
Qed.

Lemma dict_update_empty (e : dict) : dict_wf e -> dict_update [] e = e.
Proof. intros Hwf. now apply (dict_update_fresh e []). Qed.

(** The text of the members of a non-empty dictionary. *)
Lemma join_items (kv : string * string) (d : dict) (tail : string) :
  (join ", " (map encode_item (kv :: d)) ++ tail)%string =
  (encode_item kv ++
   match d with
   | [] => tail
   | kv' :: d' => ", " ++ join ", " (map encode_item (kv' :: d')) ++ tail
   end)%string.
Proof.
  destruct d as [|kv' d']; [reflexivity|].
  cbn [map join]. now rewrite append_assoc.
Qed.

Lemma encode_item_shape (kv : string * string) (tail : string) :
  (encode_item kv ++ tail)%string =
  String dquote
    (escape_string (fst kv) ++
     String dquote
       (String ":" (String " "
          (String dquote (escape_string (snd kv) ++ String dquote tail))))).
Proof.
  unfold encode_item, encode_basestring. cbn [append].
  rewrite !append_assoc. cbn [append]. rewrite !append_assoc. reflexivity.
Qed.

Lemma skip_ws_colon (s : string) : skip_ws (String ":" s) = String ":" s.
Proof. reflexivity. Qed.

Lemma skip_ws_space_quote (s : string) :
  skip_ws (String " " (String dquote s)) = String dquote s.
Proof. reflexivity. Qed.

Lemma skip_ws_quote (s : string) : skip_ws (String dquote s) = String dquote s.
Proof. reflexivity. Qed.

Lemma skip_ws_brace (s : string) : skip_ws (String "}" s) = String "}" s.
Proof. reflexivity. Qed.

Lemma skip_ws_comma (s : string) : skip_ws (String "," s) = String "," s.
Proof. reflexivity. Qed.

(** One turn of the loop on the text of one item. *)
Lemma parse_members_item (fuel : nat) (kv : string * string) (tail : string)
    (acc : dict) :
  parse_members (S fuel) (encode_item kv ++ tail) acc =
  match skip_ws tail with
  | String d s6 =>
      if (d =? "}")%char then Ok (dict_set (fst kv) (snd kv) acc, s6)
      else if (d =? ",")%char then
        parse_members fuel (skip_ws s6) (dict_set (fst kv) (snd kv) acc)
      else Raise (JSONDecodeError "Expecting ',' delimiter")
  | EmptyString => Raise (JSONDecodeError "Expecting ',' delimiter")
  end.
Proof.
  rewrite encode_item_shape. cbn [parse_members].
  rewrite Ascii.eqb_refl, scanstring_escape_string. cbn [bind].
  rewrite skip_ws_colon, Ascii.eqb_refl, skip_ws_space_quote, Ascii.eqb_refl.
  rewrite scanstring_escape_string. reflexivity.
Qed.

Lemma parse_members_items (d : dict) :
  forall (kv : string * string) (acc : dict) (fuel : nat) (rest : string),
    (List.length d < fuel)%nat ->
    parse_members fuel
      (join ", " (map encode_item (kv :: d)) ++ String "}" rest) acc =
    Ok (dict_update acc (kv :: d), rest).
Proof.
  induction d as [|kv' d IH]; intros kv acc fuel rest Hfuel;
    (destruct fuel as [|fuel]; [simpl in Hfuel; lia|]);
    rewrite join_items, parse_members_item.
  - rewrite skip_ws_brace. reflexivity.
  - cbn [append]. rewrite skip_ws_comma. cbn [Ascii.eqb Bool.eqb].
    rewrite join_items, encode_item_shape, skip_ws_space_quote.
    rewrite <- encode_item_shape, <- join_items.
    rewrite IH by (simpl in Hfuel; lia). reflexivity.
Qed.

Lemma length_json_dumps (d : dict) :
  (List.length d < String.length (json_dumps d))%nat.
Proof.
  unfold json_dumps. cbn [append String.length]. rewrite string_length_app.
  cbn [String.length].
  assert (List.length d <= String.length (join ", " (map encode_item d)))%nat;
    [|lia].
  induction d as [|kv d IH]; [simpl; lia|].
  destruct d as [|kv' d].
  - cbn [map join]. unfold encode_item, encode_basestring.
    cbn [String.length append List.length]. lia.
  - change (join ", " (map encode_item (kv :: kv' :: d)))
      with (encode_item kv ++ ", " ++ join ", " (map encode_item (kv' :: d)))%string.
    rewrite !string_length_app. cbn [List.length String.length] in *. lia.
Qed.

(** [json.loads(json.dumps(d))] is [d]. *)
Lemma json_loads_dumps (d : dict) : dict_wf d -> json_loads (json_dumps d) = Ok d.
Proof.
  intros Hwf. unfold json_loads.
  pose proof (length_json_dumps d) as Hlen.
  destruct d as [|kv d].
  - reflexivity.
  - unfold json_dumps in *. cbn [append] in *.
    change (skip_ws (String "{" ?s)) with (String "{" s).
    cbn [Ascii.eqb Bool.eqb].
    rewrite join_items, encode_item_shape, skip_ws_quote.
    cbn [Ascii.eqb Bool.eqb dquote].
    rewrite <- encode_item_shape, <- join_items.
    rewrite parse_members_items by (cbn [List.length] in Hlen; lia).
    cbn [bind skip_ws]. now rewrite dict_update_empty.
Qed.

(** The decoder never runs out of fuel: every turn of the loop consumes
    text. *)
Lemma skip_ws_shorter (s : string) :
  (String.length (skip_ws s) <= String.length s)%nat.
Proof.
  induction s as [|c s IH]; simpl; [lia|].
  destruct (is_ws c); simpl; lia.
Qed.

(** What a scan leaves is shorter than what it was given, and what it
    raises is an error of its own. *)
Lemma scanstring_bounded (n : nat) :
  forall s : string,
    (String.length s <= n)%nat ->
    match scanstring s with
    | Ok (_, after) => (String.length after < String.length s)%nat
    | Raise e => e <> NotModelled "fuel"
    end.
Proof.
  induction n as [|n IH]; intros s Hn.
  - destruct s; [simpl; discriminate | simpl in Hn; lia].
  - assert (Hrec : forall (s' : string) (c : string -> string),
              (String.length s' <= n)%nat ->
              (String.length s' < String.length s)%nat ->
              match ('(str, after) <- scanstring s' ;; Ok (c str, after)) with
              | Ok (_, after) => (String.length after < String.length s)%nat
              | Raise e => e <> NotModelled "fuel"
              end).
    { intros s' c Hle Hlt. specialize (IH s' Hle).
      destruct (scanstring s') as [[str after]|e]; cbn [bind]; [lia|exact IH]. }
    destruct s as [|c s]; [simpl; discriminate|].
    cbn [scanstring]. simpl in Hn.
    destruct (c =? dquote)%char; [simpl; lia|].
    destruct (c =? backslash)%char.
    + destruct s as [|e s]; [discriminate|]. simpl in Hn.
      destruct (e =? "u")%char.
      * destruct s as [|h1 [|h2 [|h3 [|h4 s]]]]; try discriminate.
        destruct (hex4_value h1 h2 h3 h4) as [cp|]; [|discriminate].
        destruct (utf8_encode cp) as [bytes|]; [|discriminate].
        apply (Hrec s (fun str => bytes ++ str)); simpl in *; lia.
      * destruct (unescape_char e) as [b|]; [|discriminate].
        apply (Hrec s (String b)); simpl in *; lia.
    + destruct (N_of_ascii c <? 32)%N; [discriminate|].
      apply (Hrec s (String c)); simpl in *; lia.
Qed.

Lemma parse_members_fuel (fuel : nat) :
  forall (s : string) (acc : dict),
    (String.length s < fuel)%nat ->
    parse_members fuel s acc <> Raise (NotModelled "fuel").
Proof.
  induction fuel as [|fuel IH]; intros s acc Hfuel; [lia|].
  cbn [parse_members].
  destruct s as [|q s1]; [discriminate|].
  destruct (q =? dquote)%char; [|discriminate].
  pose proof (scanstring_bounded _ s1 (le_n _)) as Hkey.
  destruct (scanstring s1) as [[key s2]|e]; cbn [bind]; [|congruence].
  pose proof (skip_ws_shorter s2) as Hws2.
  destruct (skip_ws s2) as [|colon s3]; [discriminate|].
  destruct (colon =? ":")%char; [|discriminate].
  pose proof (skip_ws_shorter s3) as Hws3.
  destruct (skip_ws s3) as [|q' s4]; [discriminate|].
  destruct (q' =? dquote)%char; [|discriminate].
  pose proof (scanstring_bounded _ s4 (le_n _)) as Hvalue.
  destruct (scanstring s4) as [[value s5]|e]; cbn [bind]; [|congruence].
  pose proof (skip_ws_shorter s5) as Hws5.
  destruct (skip_ws s5) as [|d s6]; [discriminate|].
  destruct (d =? "}")%char; [discriminate|].
  destruct (d =? ",")%char; [|discriminate].
  apply IH. pose proof (skip_ws_shorter s6). simpl in *. lia.
Qed.

Lemma json_loads_fuel (text : string) :
  json_loads text <> Raise (NotModelled "fuel").
Proof.
  unfold json_loads. pose proof (skip_ws_shorter text) as Hws.
  destruct (skip_ws text) as [|c s1]; [discriminate|].
  destruct (c =? "{")%char; [|discriminate].
  pose proof (skip_ws_shorter s1) as Hws1.
  pose proof (parse_members_fuel (String.length text) (skip_ws s1) []) as Hp.
  destruct (skip_ws s1) as [|c' s2]; [discriminate|].
  destruct (c' =? "}")%char.
  - cbn [bind]. destruct (skip_ws s2); discriminate.
  - destruct (parse_members (String.length text) (String c' s2) [])
      as [[d after]|e]; cbn [bind].
    + destruct (skip_ws after); discriminate.
    + intros H. injection H as ->. apply Hp; [simpl in *; lia | reflexivity].
Qed.

(** ** Dictionaries *)

Lemma dict_get_set (k k' v : string) (d : dict) :
  dict_get k (dict_set k' v d) =
  if (k' =? k)%string then Some v else dict_get k d.
Proof.
  induction d as [|[k0 v0] d IH]; simpl.
  - reflexivity.
  - destruct (String.eqb_spec k0 k') as [->|Hne]; simpl.
    + destruct (k' =? k)%string; reflexivity.
    + rewrite IH. destruct (String.eqb_spec k0 k) as [->|]; [|reflexivity].
      destruct (String.eqb_spec k' k) as [->|]; [congruence|reflexivity].
Qed.

Lemma dict_get_update_miss (k : string) (e : dict) :
  forall d : dict,
    dict_get k e = None -> dict_get k (dict_update d e) = dict_get k d.
Proof.
  induction e as [|[k0 v0] e IH]; intros d Hk; [reflexivity|].
  simpl in Hk. destruct (String.eqb_spec k0 k) as [->|Hne]; [discriminate|].
  change (dict_update d ((k0, v0) :: e)) with (dict_update (dict_set k0 v0 d) e).
  rewrite IH by assumption. rewrite dict_get_set.
  destruct (String.eqb_spec k0 k); [congruence|reflexivity].
Qed.

Lemma dict_get_in_keys (k v : string) (d : dict) :
  dict_get k d = Some v -> In k (dict_keys d).
Proof.
  induction d as [|[k0 v0] d IH]; simpl; [discriminate|].
  destruct (String.eqb_spec k0 k); auto.
Qed.

Lemma dict_get_not_in_keys (k : string) (d : dict) :
  ~ In k (dict_keys d) -> dict_get k d = None.
Proof.
  intros Hk. destruct (dict_get k d) eqn:E; [|reflexivity].
  elim Hk. eapply dict_get_in_keys; eauto.
Qed.

Lemma dict_get_update_hit (k v : string) (e : dict) :
  forall d : dict,
    dict_wf e -> dict_get k e = Some v ->
    dict_get k (dict_update d e) = Some v.
Proof.
  induction e as [|[k0 v0] e IH]; intros d Hwf Hk; [discriminate|].
  inversion Hwf as [|? ? Hfresh Hwf']; subst. simpl in Hk.
  change (dict_update d ((k0, v0) :: e)) with (dict_update (dict_set k0 v0 d) e).
  destruct (String.eqb_spec k0 k) as [->|Hne].
  - injection Hk as ->.
    rewrite dict_get_update_miss by (now apply dict_get_not_in_keys).
    rewrite dict_get_set, String.eqb_refl. reflexivity.
  - now apply IH.
Qed.

Lemma dict_get_update_some (k : string) (e : dict) :
  forall d : dict,
    dict_get k d <> None -> dict_get k (dict_update d e) <> None.
Proof.
  induction e as [|[k0 v0] e IH]; intros d Hk; [exact Hk|].
  change (dict_update d ((k0, v0) :: e)) with (dict_update (dict_set k0 v0 d) e).
  apply IH. rewrite dict_get_set. destruct (k0 =? k)%string; [discriminate|exact Hk].
Qed.

Lemma py_or_empty (v : option string) :
  py_or v "" = match v with Some s => s | None => "" end.
Proof.
  destruct v as [s|]; simpl; [|reflexivity].
  destruct (String.eqb_spec s ""); congruence.
Qed.

(** ** Listing *)

Lemma client_of_row_column (row : client_row) (f : string) :
  In f fixed_fields ->
  dict_get f (client_of_row row) =
  Some (match column f row with Some v => v | None => "" end).
Proof.
  intros Hf. unfold fixed_fields in Hf.
  repeat (destruct Hf as [<-|Hf];
          [cbn; rewrite ?py_or_empty; reflexivity|]).
  destruct Hf.
Qed.

Lemma mapM_Forall2 {A B : Type} (f : A -> result B) (l : list A) :
  forall l' : list B,
    mapM f l = Ok l' -> Forall2 (fun a b => f a = Ok b) l l'.
Proof.
  induction l as [|a l IH]; simpl; intros l' H.
  - injection H as <-. constructor.
  - destruct (f a) as [b|] eqn:Hb; simpl in H; [|discriminate].
    destruct (mapM f l) as [bs|]; simpl in H; [|discriminate].
    injection H as <-. constructor; auto.
Qed.

Lemma insert_desc_in (r r' : client_row) (sorted : list client_row) :
  In r' (insert_desc r sorted) <-> r' = r \/ In r' sorted.
Proof.
  induction sorted as [|r0 sorted IH]; simpl.
  - intuition.
  - destruct (clients_id r0 <=? clients_id r); simpl; rewrite ?IH; intuition.
Qed.

Lemma order_by_id_desc_in (r : client_row) (rows : list client_row) :
  In r (order_by_id_desc rows) <-> In r rows.
Proof.
  induction rows as [|r0 rows IH]; simpl; [tauto|].
  rewrite insert_desc_in, IH. intuition.
Qed.

Lemma insert_desc_HdRel (a r : client_row) (sorted : list client_row) :
  newer_first a r -> HdRel newer_first a sorted ->
  HdRel newer_first a (insert_desc r sorted).
Proof.
  intros Har Hhd. destruct sorted as [|r0 sorted]; simpl.
  - now constructor.
  - destruct (clients_id r0 <=? clients_id r); constructor; auto.
    now inversion Hhd.
Qed.

Lemma insert_desc_sorted (r : client_row) (sorted : list client_row) :
  Sorted newer_first sorted -> Sorted newer_first (insert_desc r sorted).
Proof.
  induction sorted as [|r0 sorted IH]; intros Hs; simpl.
  - repeat constructor.
  - destruct (Z.leb_spec (clients_id r0) (clients_id r)) as [Hle|Hgt].
    + constructor; [assumption|]. now constructor.
    + inversion Hs as [|? ? Hs' Hhd]; subst. constructor; [now apply IH|].
      apply insert_desc_HdRel; [unfold newer_first; lia | assumption].
Qed.

Lemma order_by_id_desc_sorted (rows : list client_row) :
  Sorted newer_first (order_by_id_desc rows).
Proof.
  induction rows as [|r rows IH]; simpl; [constructor|].
  now apply insert_desc_sorted.
Qed.

Lemma insert_desc_perm (r : client_row) (sorted : list client_row) :
  Permutation (r :: sorted) (insert_desc r sorted).
Proof.
  induction sorted as [|r0 sorted IH]; simpl; [reflexivity|].
  destruct (clients_id r0 <=? clients_id r); [reflexivity|].
  rewrite perm_swap. now constructor.
Qed.

Lemma order_by_id_desc_perm (rows : list client_row) :
  Permutation rows (order_by_id_desc rows).
Proof.
  induction rows as [|r rows IH]; simpl; [constructor|].
  rewrite <- insert_desc_perm. now constructor.
Qed.

(** The row saved last has the highest rowid and is listed first. *)
Lemma order_by_id_desc_newest (rows : list client_row) (r : client_row) :
  (forall r', In r' rows -> clients_id r' < clients_id r) ->
  order_by_id_desc (rows ++ [r]) = r :: order_by_id_desc rows.
Proof.
  unfold order_by_id_desc. rewrite fold_right_app. cbn [fold_right insert_desc].
  induction rows as [|r0 rows IH]; intros Hlt; [reflexivity|].
  cbn [fold_right]. rewrite IH by (intros; apply Hlt; now right).
  cbn [insert_desc]. pose proof (Hlt r0 (or_introl eq_refl)).
  destruct (Z.leb_spec (clients_id r) (clients_id r0)); [lia|reflexivity].
Qed.

Lemma next_rowid_fresh {R : Type} (col : R -> Z) (rows : list R) (seq : Z) :
  forall r, In r rows -> col r < next_rowid col rows seq.
Proof.
  intros r Hr. unfold next_rowid.
  destruct (select_max col rows) as [m|] eqn:E.
  - pose proof (proj2 (select_max_bound col rows m E) r Hr). lia.
  - destruct rows; [destruct Hr|]. simpl in E.
    destruct (select_max col rows); discriminate.
Qed.

(** ** Saving and listing *)

Lemma insert_client_cases (db : database) (r : client_row) :
  (In (kundennummer r) (map kundennummer (clients db)) /\
   exists msg, insert_client db r = (Raise (IntegrityError msg), db)) \/
  (~ In (kundennummer r) (map kundennummer (clients db)) /\
   insert_client db r =
   (Ok tt,
    append_client db
      (with_rowid (next_rowid clients_id (clients db) (clients_seq db)) r))).
Proof.
  unfold insert_client.
  destruct (existsb _ (clients db)) eqn:E.
  - left. split; [now apply existsb_kundennummer|]. eexists. reflexivity.
  - right. split; [|reflexivity]. intros Hin.
    apply existsb_kundennummer in Hin. congruence.
Qed.

Lemma save_client_ok (db db' : database) (data extra : dict) :
  save_client db data extra = (Ok tt, db') ->
  db' = append_client db
          (with_rowid (next_rowid clients_id (clients db) (clients_seq db))
             (row_of_data
                (py_or (dict_get "kundennummer" data) (_next_kundennummer db))
                data (json_dumps extra))).
Proof.
  unfold save_client. intros H.
  destruct (insert_client_cases db
              (row_of_data
                 (py_or (dict_get "kundennummer" data) (_next_kundennummer db))
                 data (json_dumps extra)))
    as [(_ & msg & Hraise) | (_ & Hok)]; congruence.
Qed.

(** The record listed for a row that [save_client] stored. *)
Lemma client_of_row_merged_saved (rowid : Z) (kn : string) (data extra : dict) :
  dict_wf extra ->
  client_of_row_merged (with_rowid rowid (row_of_data kn data (json_dumps extra)))
  = Ok (listed_record kn data extra).
Proof.
  intros Hwf. unfold client_of_row_merged.
  cbn [extra_fields with_rowid row_of_data].
  change (py_or (Some (json_dumps extra)) "{}") with (json_dumps extra).
  rewrite json_loads_dumps by assumption. reflexivity.
Qed.

(** Listing after a save: the new record, then the former list. *)
Lemma list_clients_save (db db' : database) (data extra : dict) (old : list dict) :
  dict_wf extra ->
  save_client db data extra = (Ok tt, db') ->
  list_clients db = Ok old ->
  list_clients db' =
  Ok (listed_record
        (py_or (dict_get "kundennummer" data) (_next_kundennummer db))
        data extra :: old).
Proof.
  intros Hwf Hsave Hold. apply save_client_ok in Hsave. subst db'.
  unfold list_clients in *. cbn [clients append_client].
  rewrite order_by_id_desc_newest.
  - cbn [mapM]. rewrite client_of_row_merged_saved by assumption.
    rewrite Hold. reflexivity.
  - intros r' Hr'. cbn [clients_id with_rowid]. now apply next_rowid_fresh.
Qed.

(** C2: a record saved and then listed is in the list with the value of
    every fixed text field it was saved with, under the identifier it was
    saved under (the one supplied, or the one assigned when none was
    supplied), and with every extra field under its value, where the extra
    field names avoid the fixed field names. *)
Theorem save_list_round_trip (db db' : database) (data extra : dict)
    (old : list dict) :
  dict_wf extra ->
  save_client db data extra = (Ok tt, db') ->
  list_clients db = Ok old ->
  exists (rec : dict) (listed : list dict),
    list_clients db' = Ok listed /\ In rec listed /\
    (forall f v : string,
       In f text_fields -> dict_get f extra = None ->
       dict_get f data = Some v -> dict_get f rec = Some v) /\
    (dict_get "kundennummer" extra = None ->
     dict_get "kundennummer" rec =
     Some (py_or (dict_get "kundennummer" data) (_next_kundennummer db)) /\
     (forall v : string,
        dict_get "kundennummer" data = Some v -> v <> "" ->
        dict_get "kundennummer" rec = Some v)) /\
    (forall k v : string, dict_get k extra = Some v -> dict_get k rec = Some v).
Proof.
  intros Hwf Hsave Hold.
  pose proof (list_clients_save db db' data extra old Hwf Hsave Hold) as Hlist.
  eexists. eexists. split; [exact Hlist|]. split; [now left|].
  unfold listed_record. split; [|split].
  - intros f v Hf Hextra Hdata.
    rewrite dict_get_update_miss by assumption.
    rewrite client_of_row_column by (now right). f_equal.
    unfold text_fields, fixed_fields in Hf. cbn [tl] in Hf.
    repeat (destruct Hf as [<-|Hf]; [cbn; now rewrite Hdata|]). destruct Hf.
  - intros Hextra. rewrite dict_get_update_miss by assumption.
    split; [reflexivity|]. intros v Hdata Hv. cbn. rewrite Hdata. cbn.
    destruct (String.eqb_spec v ""); [contradiction|reflexivity].
  - intros k v Hk. now apply dict_get_update_hit.
Qed.

Lemma save_list_round_trip_witness :
  exists (rec : dict) (listed : list dict),
    list_clients db1 = Ok listed /\ In rec listed /\
    dict_get "name" rec = Some "Anna Arndt" /\
    dict_get "kundennummer" rec = Some "K-00001" /\
    dict_get "Hausarzt" rec = Some "Dr. Beck".
Proof.
  assert (Hwf : dict_wf (snd record1)).
  { repeat constructor; simpl; intuition discriminate. }
  destruct (save_list_round_trip empty_database db1 (fst record1) (snd record1)
              [] Hwf eq_refl eq_refl)
    as (rec & listed & Hlist & Hin & Hfixed & Hauto & Hextra).
  exists rec, listed. split; [exact Hlist|]. split; [exact Hin|]. split; [|split].
  - apply Hfixed; [simpl; tauto | reflexivity | reflexivity].
  - exact (proj1 (Hauto eq_refl)).
  - apply Hextra. reflexivity.
Defined.

(** The two [UNIQUE] columns of the client table stay free of repeats. *)
Lemma save_client_keeps_unique (db : database) (data extra : dict) :
  NoDup (map kundennummer (clients db)) ->
  NoDup (map clients_id (clients db)) ->
  NoDup (map kundennummer (clients (snd (save_client db data extra)))) /\
  NoDup (map clients_id (clients (snd (save_client db data extra)))).
Proof.
  intros Hkn Hid. unfold save_client.
  destruct (insert_client_cases db
              (row_of_data
                 (py_or (dict_get "kundennummer" data) (_next_kundennummer db))
                 data (json_dumps extra)))
    as [(_ & msg & ->) | (Hfresh & ->)]; [now split|].
  cbn [snd clients append_client]. rewrite !map_app.
  cbn [map clients_id kundennummer with_rowid row_of_data] in *.
  split; (apply NoDup_app; [assumption | repeat constructor; intros [] |]).
  - intros kn Hin [<-|[]]. contradiction.
  - intros rowid Hin [<-|[]]. apply in_map_iff in Hin.
    destruct Hin as (r & Hr & Hin).
    pose proof (next_rowid_fresh clients_id (clients db) (clients_seq db) r Hin).
    lia.
Qed.

(** C6: [save_client] raises the integrity error when the identifier is
    already stored, and the database is then the one before; when the
    identifier is fresh it adds exactly one row, under a new rowid, whose
    [extra_fields] is the JSON text of the extra fields. *)
Theorem save_client_unique (db : database) (data extra : dict) :
  let kn := py_or (dict_get "kundennummer" data) (_next_kundennummer db) in
  (In kn (map kundennummer (clients db)) ->
   exists msg : string,
     save_client db data extra = (Raise (IntegrityError msg), db)) /\
  (~ In kn (map kundennummer (clients db)) ->
   exists (db' : database) (row : client_row),
     save_client db data extra = (Ok tt, db') /\
     clients db' = (clients db ++ [row])%list /\
     users db' = users db /\ app_settings db' = app_settings db /\
     ~ In (clients_id row) (map clients_id (clients db)) /\
     kundennummer row = kn /\
     (forall f : string, In f text_fields -> column f row = dict_get f data) /\
     extra_fields row = Some (json_dumps extra) /\
     (dict_wf extra -> json_loads (json_dumps extra) = Ok extra)).
Proof.
  intros kn. unfold save_client. fold kn.
  destruct (insert_client_cases db (row_of_data kn data (json_dumps extra)))
    as [(Hin & msg & Hraise) | (Hfresh & Hok)];
    cbn [kundennummer row_of_data] in *; (split; [|intros Hnot]).
  - intros _. exists msg. exact Hraise.
  - contradiction.
  - intros Hin. contradiction.
  - eexists. eexists. split; [exact Hok|].
    cbn [clients users app_settings append_client clients_id with_rowid
         kundennummer extra_fields row_of_data].
    repeat split.
    + intros Hin. apply in_map_iff in Hin. destruct Hin as (r & Hr & Hin).
      pose proof (next_rowid_fresh clients_id (clients db) (clients_seq db) r Hin).
      cbn [clients_id with_rowid] in Hr. lia.
    + intros f Hf. unfold text_fields, fixed_fields in Hf. cbn [tl] in Hf.
      repeat (destruct Hf as [<-|Hf]; [reflexivity|]). destruct Hf.
    + apply json_loads_dumps.
Qed.

Lemma save_client_unique_witness :
  (exists msg : string,
     save_client db2 [("kundennummer", "K-00100"); ("name", "Dora")] []
     = (Raise (IntegrityError msg), db2)) /\
  (exists (db' : database) (row : client_row),
     save_client db1 (fst record2) (snd record2) = (Ok tt, db') /\
     clients db' = (clients db1 ++ [row])%list /\
     kundennummer row = "K-00100" /\
     extra_fields row = Some "{}").
Proof.
  split.
  - apply (proj1 (save_client_unique db2
                    [("kundennummer", "K-00100"); ("name", "Dora")] [])).
    vm_compute. tauto.
  - destruct (proj2 (save_client_unique db1 (fst record2) (snd record2)))
      as (db' & row & Hsave & Hrows & _ & _ & _ & Hkn & _ & Hextra & _).
    { vm_compute. intuition discriminate. }
    exists db', row. auto.
Defined.

(** C7: [list_clients] returns every stored client, by falling rowid, so
    the one saved last first: after saving R1, R2 and R3 in that order the
    list is R3, R2, R1 and then what was listed before. *)
Theorem list_clients_newest_first (db db1' db2' db3' : database)
    (d1 e1 d2 e2 d3 e3 : dict) (old : list dict) :
  dict_wf e1 -> dict_wf e2 -> dict_wf e3 ->
  list_clients db = Ok old ->
  save_client db d1 e1 = (Ok tt, db1') ->
  save_client db1' d2 e2 = (Ok tt, db2') ->
  save_client db2' d3 e3 = (Ok tt, db3') ->
  let kn1 := py_or (dict_get "kundennummer" d1) (_next_kundennummer db) in
  let kn2 := py_or (dict_get "kundennummer" d2) (_next_kundennummer db1') in
  let kn3 := py_or (dict_get "kundennummer" d3) (_next_kundennummer db2') in
  list_clients db3' =
  Ok (listed_record kn3 d3 e3 :: listed_record kn2 d2 e2 ::
      listed_record kn1 d1 e1 :: old) /\
  exists rows : list client_row,
    Permutation (clients db3') rows /\
    Sorted newer_first rows /\
    Forall2 (fun row rec => client_of_row_merged row = Ok rec) rows
      (listed_record kn3 d3 e3 :: listed_record kn2 d2 e2 ::
       listed_record kn1 d1 e1 :: old).
Proof.
  intros Hwf1 Hwf2 Hwf3 Hold Hs1 Hs2 Hs3 kn1 kn2 kn3.
  pose proof (list_clients_save _ _ _ _ _ Hwf1 Hs1 Hold) as H1.
  pose proof (list_clients_save _ _ _ _ _ Hwf2 Hs2 H1) as H2.
  pose proof (list_clients_save _ _ _ _ _ Hwf3 Hs3 H2) as H3.
  split; [exact H3|].
  exists (order_by_id_desc (clients db3')).
  split; [apply order_by_id_desc_perm|].
  split; [apply order_by_id_desc_sorted|].
  apply mapM_Forall2. exact H3.
Qed.

Lemma list_clients_newest_first_witness :
  option_map (map (dict_get_default "name" ""))
    (match list_clients db3 with Ok l => Some l | Raise _ => None end)
  = Some ["Clara Clausen"; "Bernd Boll"; "Anna Arndt"].
Proof.
  assert (Hwf1 : dict_wf (snd record1))
    by (repeat constructor; simpl; intuition discriminate).
  assert (Hwf2 : dict_wf (snd record2)) by constructor.
  assert (Hwf3 : dict_wf (snd record3))
    by (repeat constructor; simpl; intuition discriminate).
  destruct (list_clients_newest_first empty_database db1 db2 db3
              (fst record1) (snd record1) (fst record2) (snd record2)
              (fst record3) (snd record3) [] Hwf1 Hwf2 Hwf3
              eq_refl eq_refl eq_refl eq_refl) as [Hlist _].
  rewrite Hlist. reflexivity.
Defined.

(** C10: every record [list_clients] returns is built on a dictionary with
    exactly the fourteen fixed keys, each mapped to the string stored in the
    column or to the empty string when the column is [NULL], and keeps all
    fourteen keys once the extra fields are merged on top. *)
Theorem list_clients_fixed_fields (db : database) (listed : list dict) :
  list_clients db = Ok listed ->
  Forall
    (fun rec : dict =>
       exists (row : client_row) (extra : dict),
         In row (clients db) /\
         json_loads (py_or (extra_fields row) "{}") = Ok extra /\
         rec = dict_update (client_of_row row) extra /\
         dict_keys (client_of_row row) = fixed_fields /\
         List.length fixed_fields = 14%nat /\
         (forall f : string,
            In f fixed_fields ->
            dict_get f (client_of_row row) =
            Some (match column f row with Some v => v | None => "" end)) /\
         (forall f : string,
            In f fixed_fields -> exists v : string, dict_get f rec = Some v))
    listed /\
  (forall (kn text f : string) (data : dict),
     In f text_fields -> dict_get f data = None ->
     dict_get f (client_of_row (row_of_data kn data text)) = Some "").
Proof.
  intros Hlist. split.
  2:{ intros kn text f data Hf Hdata.
      rewrite client_of_row_column by (now right). f_equal.
      unfold text_fields, fixed_fields in Hf. cbn [tl] in Hf.
      repeat (destruct Hf as [<-|Hf]; [cbn; now rewrite Hdata|]). destruct Hf. }
  unfold list_clients in Hlist. apply mapM_Forall2 in Hlist.
  assert (Hrows : forall row, In row (order_by_id_desc (clients db)) ->
                              In row (clients db))
    by (intros row; apply order_by_id_desc_in).
  induction Hlist as [|row rec rows recs Hrow _ IH]; constructor.
  - unfold client_of_row_merged in Hrow.
    destruct (json_loads (py_or (extra_fields row) "{}")) as [extra|] eqn:E;
      [|discriminate].
    injection Hrow as <-. exists row, extra.
    split; [apply Hrows; now left|]. split; [exact E|].
    split; [reflexivity|]. split; [reflexivity|]. split; [reflexivity|].
    split; [intros f Hf; now apply client_of_row_column|].
    intros f Hf.
    destruct (dict_get f (dict_update (client_of_row row) extra)) as [v|] eqn:Hv;
      [now exists v|].
    exfalso. revert Hv. apply dict_get_update_some.
    rewrite client_of_row_column by assumption. discriminate.
  - apply IH. intros row' Hin. apply Hrows. now right.
Qed.

Lemma list_clients_fixed_fields_witness :
  exists listed : list dict,
    list_clients db3 = Ok listed /\
    Forall (fun rec : dict => exists v : string, dict_get "strasse" rec = Some v)
      listed /\
    dict_get "strasse"
      (client_of_row (row_of_data "K-00001" (fst record1) "{}")) = Some "".
Proof.
  destruct (list_clients db3) as [listed|e] eqn:Hlist; [|discriminate].
  exists listed. split; [reflexivity|].
  destruct (list_clients_fixed_fields db3 listed Hlist) as [Hall Habsent].
  split.
  - eapply Forall_impl; [|exact Hall]. cbv beta.
    intros rec (row & extra & _ & _ & _ & _ & _ & _ & Hkeys).
    apply Hkeys. simpl. tauto.
  - apply Habsent; [simpl; tauto | reflexivity].
Defined.

(** ** Credentials *)

Lemma unhex_hex_byte (b : ascii) (s : string) :
  unhex (hex_byte b ++ s) = b :: unhex s.
Proof. destruct b as [[] [] [] [] [] [] [] []]; reflexivity. Qed.

Lemma unhex_hex (bs : list ascii) : unhex (hex bs) = bs.
Proof.
  induction bs as [|b bs IH]; [reflexivity|].
  cbn [hex]. now rewrite unhex_hex_byte, IH.
Qed.

Lemma hex_inj (bs bs' : list ascii) : hex bs = hex bs' -> bs = bs'.
Proof.
  intros H. apply (f_equal unhex) in H. now rewrite !unhex_hex in H.
Qed.

Lemma length_hex (bs : list ascii) :
  String.length (hex bs) = (2 * List.length bs)%nat.
Proof.
  induction bs as [|b bs IH]; [reflexivity|].
  cbn [hex hex_byte append String.length List.length]. rewrite IH. lia.
Qed.

Lemma existsb_username (u : string) (rows : list user_row) :
  existsb (fun r => (username r =? u)%string) rows = true <->
  In u (map username rows).
Proof.
  rewrite existsb_exists, in_map_iff. split; intros (r & H1 & H2); exists r.
  - apply String.eqb_eq in H2. auto.
  - split; [assumption|]. apply String.eqb_eq. auto.
Qed.

Lemma find_username_none (u : string) (rows : list user_row) :
  ~ In u (map username rows) ->
  find (fun r => (username r =? u)%string) rows = None.
Proof.
  intros Hu. destruct (find _ rows) as [r|] eqn:E; [|reflexivity].
  apply find_some in E. destruct E as [Hin Heq]. apply String.eqb_eq in Heq.
  elim Hu. apply in_map_iff. eauto.
Qed.

Lemma find_username_unique (row : user_row) (rows : list user_row) :
  NoDup (map username rows) -> In row rows ->
  find (fun r => (username r =? username row)%string) rows = Some row.
Proof.
  induction rows as [|r rows IH]; intros Hnd Hin; [destruct Hin|].
  inversion Hnd as [|? ? Hfresh Hnd']; subst. cbn [find].
  destruct Hin as [->|Hin].
  - now rewrite String.eqb_refl.
  - destruct (String.eqb_spec (username r) (username row)) as [Heq|_].
    + elim Hfresh. rewrite Heq. now apply in_map.
    + now apply IH.
Qed.

Lemma find_app_none {A : Type} (f : A -> bool) (l l' : list A) :
  find f l = None -> find f (l ++ l') = find f l'.
Proof.
  induction l as [|a l IH]; simpl; [reflexivity|].
  destruct (f a); [discriminate|exact IH].
Qed.

Section CredentialStore.

Variable pbkdf2_hmac : string -> string -> string -> Z -> list ascii.

Lemma insert_user_cases (db : database) (u h s : string) :
  (In u (map username (users db)) /\
   exists msg, insert_user db u h s = (Raise (IntegrityError msg), db)) \/
  (~ In u (map username (users db)) /\
   exists row : user_row,
     insert_user db u h s =
     (Ok tt,
      {| users := users db ++ [row]; users_seq := users_id row;
         clients := clients db; clients_seq := clients_seq db;
         app_settings := app_settings db |}) /\
     username row = u /\ password_hash row = h /\ salt row = s /\
     ~ In (users_id row) (map users_id (users db))).
Proof.
  unfold insert_user. destruct (existsb _ (users db)) eqn:E.
  - left. split; [now apply existsb_username|]. eexists. reflexivity.
  - right. split.
    + intros Hin. apply existsb_username in Hin. congruence.
    + exists {| users_id := next_rowid users_id (users db) (users_seq db);
                username := u; password_hash := h; salt := s |}.
      split; [reflexivity|]. cbn [users_id username password_hash salt].
      repeat split.
      intros Hin. apply in_map_iff in Hin. destruct Hin as (r & Hr & Hin).
      pose proof (next_rowid_fresh users_id (users db) (users_seq db) r Hin).
      lia.
Qed.

(** [username TEXT UNIQUE] stays true of the table. *)
Lemma create_user_keeps_unique (db : database) (urandom : nat -> ascii)
    (u p : string) :
  NoDup (map username (users db)) ->
  NoDup (map username (users (snd (create_user pbkdf2_hmac db urandom u p)))).
Proof.
  intros Hnd. unfold create_user.
  destruct (insert_user_cases db u
              (_hash_password pbkdf2_hmac p (token_hex urandom 16))
              (token_hex urandom 16))
    as [(_ & msg & ->) | (Hfresh & row & -> & Hu & _)]; [assumption|].
  cbn [snd users]. rewrite map_app. cbn [map]. rewrite Hu.
  apply NoDup_app; [assumption | repeat constructor; intros [] |].
  intros u' Hin [<-|[]]. contradiction.
Qed.

(** C5: [create_user] answers [False] without raising when the user name is
    taken, and the database is then the one before; for a fresh user name it
    adds one account whose salt is the hexadecimal text of 16 bytes drawn at
    random (32 digits, 128 bits) and whose hash is PBKDF2-HMAC-SHA256 of the
    password with that salt at 120000 iterations, and answers [True]. *)
Theorem create_user_unique (db : database) (urandom : nat -> ascii)
    (u p : string) :
  (In u (map username (users db)) ->
   create_user pbkdf2_hmac db urandom u p = (Ok false, db)) /\
  (~ In u (map username (users db)) ->
   exists (db' : database) (row : user_row),
     create_user pbkdf2_hmac db urandom u p = (Ok true, db') /\
     users db' = (users db ++ [row])%list /\
     clients db' = clients db /\ app_settings db' = app_settings db /\
     ~ In (users_id row) (map users_id (users db)) /\
     username row = u /\
     String.length (salt row) = 32%nat /\
     unhex (salt row) = map urandom (seq 0 16) /\
     password_hash row = hex (pbkdf2_hmac "sha256" p (salt row) 120000)).
Proof.
  unfold create_user, _hash_password, token_hex, token_bytes.
  destruct (insert_user_cases db u
              (hex (pbkdf2_hmac "sha256" p (hex (map urandom (seq 0 16))) 120000))
              (hex (map urandom (seq 0 16))))
    as [(Hin & msg & Hraise) | (Hfresh & row & Hok & Hu & Hh & Hs & Hid)];
    (split; [intros Hin'|intros Hfresh']); try contradiction.
  - rewrite Hraise. reflexivity.
  - rewrite Hok. eexists. exists row. split; [reflexivity|].
    cbn [users clients app_settings]. rewrite Hs.
    do 5 (split; [auto; fail|]). split; [|split].
    + now rewrite length_hex, length_map, length_seq.
    + apply unhex_hex.
    + exact Hh.
Qed.

(** C4: [validate_user] answers [False] for a user name that is not stored;
    for a stored one it answers [True] exactly when the stored hash is
    PBKDF2-HMAC-SHA256 of the password with the stored salt at 120000
    iterations.  After [create_user] succeeded for [u] and [p], [u] is
    accepted with [p] and refused with every password whose derived key is
    another. *)
Theorem validate_user_hash (db : database) (u p : string) :
  (~ In u (map username (users db)) ->
   validate_user pbkdf2_hmac db u p = false) /\
  (forall row : user_row,
     NoDup (map username (users db)) -> In row (users db) ->
     username row = u ->
     (validate_user pbkdf2_hmac db u p = true <->
      password_hash row = hex (pbkdf2_hmac "sha256" p (salt row) 120000))) /\
  (forall (db0 : database) (urandom : nat -> ascii) (p' : string),
     create_user pbkdf2_hmac db0 urandom u p = (Ok true, db) ->
     validate_user pbkdf2_hmac db u p = true /\
     (pbkdf2_hmac "sha256" p' (token_hex urandom 16) 120000 <>
      pbkdf2_hmac "sha256" p (token_hex urandom 16) 120000 ->
      validate_user pbkdf2_hmac db u p' = false)).
Proof.
  unfold validate_user, select_user, _hash_password. split; [|split].
  - intros Hu. now rewrite find_username_none.
  - intros row Hnd Hin <-. rewrite find_username_unique by assumption.
    apply String.eqb_eq.
  - intros db0 urandom p'. unfold create_user, _hash_password.
    destruct (insert_user_cases db0 u
                (hex (pbkdf2_hmac "sha256" p (token_hex urandom 16) 120000))
                (token_hex urandom 16))
      as [(Hin & msg & Hraise) | (Hfresh & row & Hok & Hu & Hh & Hs & Hid)].
    + rewrite Hraise. discriminate.
    + rewrite Hok. intros H. injection H as <-. cbn [users].
      rewrite find_app_none by (now apply find_username_none). cbn [find].
      rewrite Hu, String.eqb_refl, Hh, Hs. split.
      * apply String.eqb_refl.
      * intros Hne. apply String.eqb_neq. intros Heq.
        apply hex_inj in Heq. congruence.
Qed.

End CredentialStore.

Lemma create_user_unique_witness :
  create_user example_kdf db_alice example_random "alice" "other"
  = (Ok false, db_alice) /\
  exists (db' : database) (row : user_row),
    create_user example_kdf empty_database example_random "alice" "pw1"
    = (Ok true, db') /\
    users db' = [row] /\
    salt row = "00112233445566778899aabbccddeeff".
Proof.
  split.
  - apply (proj1 (create_user_unique example_kdf db_alice example_random
                    "alice" "other")).
    vm_compute. tauto.
  - destruct (proj2 (create_user_unique example_kdf empty_database
                       example_random "alice" "pw1"))
      as (db' & row & Hcreate & Husers & _ & _ & _ & _ & _ & _ & _);
      [simpl; tauto|].
    exists db', row. split; [exact Hcreate|]. split; [exact Husers|].
    vm_compute in Hcreate. injection Hcreate as <-.
    vm_compute in Husers. injection Husers as <-. reflexivity.
Defined.

Lemma validate_user_hash_witness :
  validate_user example_kdf db_alice "alice" "pw1" = true /\
  validate_user example_kdf db_alice "alice" "wrong" = false /\
  validate_user example_kdf db_alice "bob" "pw1" = false /\
  (validate_user example_kdf db_alice "alice" "wrong" = true <->
   password_hash row_alice =
   hex (example_kdf "sha256" "wrong" (salt row_alice) 120000)).
Proof.
  destruct (validate_user_hash example_kdf db_alice "alice" "pw1")
    as (_ & _ & Hcreated).
  destruct (Hcreated empty_database example_random "wrong" eq_refl)
    as [Hok Hwrong].
  split; [exact Hok|]. split; [|split].
  - apply Hwrong. vm_compute. discriminate.
  - apply (proj1 (validate_user_hash example_kdf db_alice "bob" "pw1")).
    vm_compute. intuition discriminate.
  - apply (proj1 (proj2 (validate_user_hash example_kdf db_alice "alice" "wrong"))
             row_alice).
    + vm_compute. repeat constructor. intros [].
    + vm_compute. now left.
    + reflexivity.
Defined.

(** ** The exporters *)

Lemma list_clients_no_rows (db : database) :
  clients db = [] -> list_clients db = Ok [].
Proof. intros H. unfold list_clients. rewrite H. reflexivity. Qed.

(** C9: with an empty client list the tabular export shows one information
    box and stops; no file is written, the database is the one before. *)
Theorem export_excel_empty (w : world) (file_path : string) :
  list_clients (w_db w) = Ok [] ->
  exists w' : world,
    _export_excel file_path w = Ok w' /\
    w_files w' = w_files w /\
    w_db w' = w_db w /\
    w_messages w' =
    (w_messages w ++
     [{| msg_kind := showinfo; msg_title := "Hinweis";
         msg_text := "Keine Kunden zum Exportieren." |}])%list.
Proof.
  intros Hempty. unfold _export_excel. rewrite Hempty. cbn [bind].
  eexists. split; [reflexivity|]. repeat split.
Qed.

Lemma export_excel_empty_witness :
  exists w' : world,
    _export_excel "kunden.xlsx" world_empty = Ok w' /\
    w_files w' = [] /\
    w_db w' = empty_database /\
    map msg_kind (w_messages w') = [showinfo].
Proof.
  destruct (export_excel_empty world_empty "kunden.xlsx"
              (list_clients_no_rows empty_database eq_refl))
    as (w' & Hexport & Hfiles & Hdb & Hmsg).
  exists w'. split; [exact Hexport|]. split; [exact Hfiles|].
  split; [exact Hdb|]. rewrite Hmsg. reflexivity.
Defined.

Lemma drawn_texts_app (ops ops' : list pdf_op) :
  drawn_texts (ops ++ ops') = (drawn_texts ops ++ drawn_texts ops')%list.
Proof. apply flat_map_app. Qed.

Lemma drawn_texts_strokes (y : Q) (ss : list (list (Z * Z))) :
  drawn_texts (concat (map (stroke_lines y) ss)) = [].
Proof.
  induction ss as [|s ss IH]; [reflexivity|].
  cbn [map concat]. rewrite drawn_texts_app, IH, app_nil_r.
  unfold stroke_lines. induction (seq 0 (List.length s - 1)); auto.
Qed.

Lemma drawn_lines_strokes (y : Q) (ss : list (list (Z * Z))) :
  drawn_lines (concat (map (stroke_lines y) ss)) =
  concat (map (stroke_lines y) ss).
Proof.
  induction ss as [|s ss IH]; [reflexivity|].
  cbn [map concat]. unfold drawn_lines in *. rewrite filter_app, IH.
  f_equal. unfold stroke_lines.
  induction (seq 0 (List.length s - 1)) as [|i l IHl]; [reflexivity|].
  cbn [map filter]. now rewrite IHl.
Qed.

Lemma page_count_strokes (y : Q) (ss : list (list (Z * Z))) :
  page_count (concat (map (stroke_lines y) ss)) = 0%nat.
Proof.
  unfold page_count. induction ss as [|s ss IH]; [reflexivity|].
  cbn [map concat]. rewrite filter_app, List.length_app, IH, Nat.add_0_r.
  unfold stroke_lines. induction (seq 0 (List.length s - 1)); auto.
Qed.

Lemma length_stroke_lines (y : Q) (stroke : list (Z * Z)) :
  List.length (stroke_lines y stroke) = (List.length stroke - 1)%nat.
Proof. unfold stroke_lines. now rewrite length_map, length_seq. Qed.

(** C3, as amended: with a path chosen, the contract export writes one A4
    document of a single page: the title, then seven label and value lines
    16 points apart, the boilerplate sentence, the signature heading and one
    segment for every two neighbouring points of every stroke, each at its
    fixed place.  The company line is a line of the contract text composed
    for the window, where it stands exactly when a company name is set. *)
Theorem contract_export_page (self : ContractWindow) (file_path : string)
    (w : world) :
  file_path <> "" ->
  let height := snd A4 in
  exists ops : list pdf_op,
    w_files (_export_pdf self file_path w) = (file_path, Pdf A4 ops) :: w_files w /\
    w_db (_export_pdf self file_path w) = w_db w /\
    page_count ops = 1%nat /\
    (exists title lines boilerplate signature,
       drawn_texts ops = ([title] ++ lines ++ [boilerplate; signature])%list /\
       text_at 50 (height - 60) "Vertrag" title /\
       List.length lines = 7%nat /\
       (forall i : nat,
          (i < 7)%nat ->
          text_at 50 (height - 80 - 16 * inject_Z (Z.of_nat i))
            (nth i (label_value_lines self) "") (nth i lines (0%Q, 0%Q, ""))) /\
       text_at 50 (height - 206)
         "Mit der Unterzeichnung bestätigen beide Parteien den Vertrag."
         boilerplate /\
       text_at 50 (height - 246) "Signatur" signature) /\
    (exists y0 : Q,
       (y0 == height - 256)%Q /\
       drawn_lines ops = concat (map (stroke_lines y0) (strokes self)) /\
       forall stroke : list (Z * Z),
         List.length (stroke_lines y0 stroke) = (List.length stroke - 1)%nat) /\
    List.length (filter (starts_with "Anbieter: ") (contract_text_lines self))
    = (if (company_name self =? "")%string then 0 else 1)%nat.
Proof.
  intros Hpath height. exists (contract_page self).
  assert (Htruthy : truthy (Some file_path) = true).
  { simpl. destruct (String.eqb_spec file_path ""); [contradiction|reflexivity]. }
  unfold _export_pdf. rewrite Htruthy. cbn [negb w_files w_db messagebox write_file].
  split; [reflexivity|]. split; [reflexivity|].
  unfold contract_page. cbn [app].
  split; [|split; [|split]].
  - unfold page_count. cbn [filter]. rewrite filter_app, List.length_app.
    fold (page_count (concat (map (stroke_lines
      (snd A4 - 60 - 20 - 16 - 16 - 16 - 16 - 16 - 16 - 30 - 40 - 10))
      (strokes self)))).
    rewrite page_count_strokes. reflexivity.
  - cbn [drawn_texts flat_map app].
    fold (drawn_texts (concat (map (stroke_lines
      (snd A4 - 60 - 20 - 16 - 16 - 16 - 16 - 16 - 16 - 30 - 40 - 10))
      (strokes self)) ++ [showPage])).
    rewrite drawn_texts_app, drawn_texts_strokes. cbn [drawn_texts flat_map app].
    eexists. eexists (_ :: _ :: _ :: _ :: _ :: _ :: _ :: nil). eexists. eexists.
    split; [reflexivity|].
    split; [repeat split; reflexivity|]. split; [reflexivity|].
    split; [|split; repeat split; reflexivity].
    intros i Hi.
    do 7 (destruct i as [|i]; [repeat split; reflexivity|]). lia.
  - eexists. split; [|split].
    2:{ unfold drawn_lines. cbn [filter]. rewrite filter_app.
        cbn [filter app]. rewrite app_nil_r. apply drawn_lines_strokes. }
    + reflexivity.
    + intros stroke. apply length_stroke_lines.
  - unfold contract_text_lines. cbn [truthy].
    destruct (company_name self =? "")%string; destruct (logo_path self =? "")%string;
      reflexivity.
Qed.

Lemma contract_export_page_witness :
  "vertrag.pdf" <> "" /\
  exists ops : list pdf_op,
    w_files (_export_pdf contract_example "vertrag.pdf" world_empty)
    = [("vertrag.pdf", Pdf A4 ops)] /\
    page_count ops = 1%nat /\
    List.length (drawn_texts ops) = 10%nat /\
    List.length (drawn_lines ops) = 3%nat.
Proof.
  assert (Hpath : "vertrag.pdf" <> "") by discriminate.
  split; [exact Hpath|].
  destruct (contract_export_page contract_example "vertrag.pdf" world_empty Hpath)
    as (ops & Hfiles & _ & Hpages &
        (title & lines & boilerplate & signature & Htexts & _ & Hlen & _) &
        (y0 & _ & Hlines & _) & _).
  exists ops. split; [exact Hfiles|]. split; [exact Hpages|]. split.
  - rewrite Htexts, !List.length_app, Hlen. reflexivity.
  - rewrite Hlines. reflexivity.
Defined.

(** C3, as stated, fails: for a window with a company name set the page
    has ten texts, a title, seven label and value lines, the boilerplate
    sentence and the signature heading; the layout of the specification
    needs eight such lines and a company line, twelve texts. *)
Lemma contract_page_not_spec_layout :
  company_name contract_example = "Pflegedienst Nord" /\
  List.length (drawn_texts (contract_page contract_example)) = 10%nat /\
  filter (starts_with "Anbieter: ")
    (map snd (drawn_texts (contract_page contract_example))) = [] /\
  ~ spec_contract_layout
      (map snd (drawn_texts (contract_page contract_example)))
      (company_name contract_example).
Proof.
  split; [reflexivity|]. split; [reflexivity|]. split; [reflexivity|].
  intros (title & lines & company_line & boilerplate & signature
          & Htexts & Hlines & Hcompany & _).
  apply (f_equal (@List.length string)) in Htexts.
  rewrite !List.length_app, Hlines, Hcompany in Htexts by discriminate.
  vm_compute in Htexts. discriminate.
Qed.

(** * Further properties of the code *)

(** ** Settings *)

Lemma find_upsert_same (k : string) (v : option string)
    (rows : list (string * option string)) :
  exists row, find (fun kv => (fst kv =? k)%string) (upsert_setting k v rows)
              = Some row /\ snd row = v.
Proof.
  induction rows as [|[k' v'] rows IH]; simpl.
  - rewrite String.eqb_refl. eexists. split; reflexivity.
  - destruct (String.eqb_spec k' k) as [->|Hne]; simpl.
    + rewrite String.eqb_refl. eexists. split; reflexivity.
    + destruct (String.eqb_spec k' k); [contradiction|exact IH].
Qed.

Lemma find_upsert_other (k k' : string) (v : option string)
    (rows : list (string * option string)) :
  k <> k' ->
  find (fun kv => (fst kv =? k')%string) (upsert_setting k v rows) =
  find (fun kv => (fst kv =? k')%string) rows.
Proof.
  intros Hne. induction rows as [|[k0 v0] rows IH]; simpl.
  - destruct (String.eqb_spec k k'); [contradiction|reflexivity].
  - destruct (String.eqb_spec k0 k) as [->|Hne0]; simpl.
    + destruct (String.eqb_spec k k'); [contradiction|reflexivity].
    + now rewrite IH.
Qed.

Lemma upsert_upsert (k : string) (v v' : option string)
    (rows : list (string * option string)) :
  upsert_setting k v (upsert_setting k v' rows) = upsert_setting k v rows.
Proof.
  induction rows as [|[k0 v0] rows IH]; simpl.
  - now rewrite String.eqb_refl.
  - destruct (String.eqb_spec k0 k) as [->|Hne]; simpl.
    + now rewrite String.eqb_refl.
    + destruct (String.eqb_spec k0 k); [contradiction|]. now rewrite IH.
Qed.

Lemma upsert_keys (k : string) (v : option string)
    (rows : list (string * option string)) :
  map fst (upsert_setting k v rows) =
  if in_dec string_dec k (map fst rows) then map fst rows
  else (map fst rows ++ [k])%list.
Proof.
  induction rows as [|[k0 v0] rows IH]; simpl; [reflexivity|].
  destruct (String.eqb_spec k0 k) as [->|Hne]; simpl.
  - destruct (string_dec k k); [reflexivity|contradiction].
  - rewrite IH. destruct (string_dec k0 k); [contradiction|].
    destruct (in_dec string_dec k (map fst rows)); reflexivity.
Qed.

(** X1: a setting saved is the setting loaded, whatever was stored before
    and whatever the default; an earlier value under the same key leaves no
    trace in the table. *)
Theorem load_setting_save_setting (db : database) (key value earlier default : string) :
  load_setting (save_setting db key value) key default = Some value /\
  app_settings (save_setting (save_setting db key earlier) key value) =
  app_settings (save_setting db key value).
Proof.
  split.
  - unfold load_setting, save_setting. cbn [app_settings].
    destruct (find_upsert_same key (Some value) (app_settings db))
      as (row & -> & Hrow). exact Hrow.
  - unfold save_setting. cbn [app_settings]. apply upsert_upsert.
Qed.

(** X2: saving under one key leaves what is loaded under every other key
    as it was, and a key that is not stored loads as the default given. *)
Theorem load_setting_other_key (db : database) (key value other default : string) :
  (key <> other ->
   load_setting (save_setting db key value) other default =
   load_setting db other default) /\
  (~ In other (map fst (app_settings db)) ->
   load_setting db other default = Some default).
Proof.
  split.
  - intros Hne. unfold load_setting, save_setting. cbn [app_settings].
    now rewrite find_upsert_other.
  - intros Hmiss. unfold load_setting.
    destruct (find _ (app_settings db)) as [row|] eqn:E; [|reflexivity].
    apply find_some in E. destruct E as [Hin Heq]. apply String.eqb_eq in Heq.
    elim Hmiss. rewrite <- Heq. now apply in_map.
Qed.

Lemma load_setting_other_key_witness :
  load_setting (save_setting db_branded "logo_path" "logo.png")
    "company_name" "" = Some "Pflegedienst Nord" /\
  load_setting db_branded "logo_path" "kein Logo" = Some "kein Logo".
Proof.
  split.
  - rewrite (proj1 (load_setting_other_key db_branded "logo_path" "logo.png"
                      "company_name" "")) by discriminate.
    reflexivity.
  - apply (proj2 (load_setting_other_key db_branded "" "" "logo_path" "kein Logo")).
    simpl. intuition discriminate.
Defined.

(** X3: [save_setting] keeps the keys of the table free of repeats
    ([key TEXT PRIMARY KEY]), adds a row only for a key that is new, and
    leaves the accounts and the clients alone. *)
Theorem save_setting_primary_key (db : database) (key value : string) :
  NoDup (map fst (app_settings db)) ->
  NoDup (map fst (app_settings (save_setting db key value))) /\
  (In key (map fst (app_settings db)) ->
   map fst (app_settings (save_setting db key value)) =
   map fst (app_settings db)) /\
  (~ In key (map fst (app_settings db)) ->
   app_settings (save_setting db key value) =
   (app_settings db ++ [(key, Some value)])%list) /\
  users (save_setting db key value) = users db /\
  clients (save_setting db key value) = clients db.
Proof.
  intros Hnd. unfold save_setting. cbn [app_settings users clients].
  pose proof (upsert_keys key (Some value) (app_settings db)) as Hkeys.
  destruct (in_dec string_dec key (map fst (app_settings db))) as [Hin|Hout].
  - rewrite Hkeys. repeat split; auto. intros Hout. contradiction.
  - rewrite Hkeys. repeat split; auto.
    + apply NoDup_app; [assumption | repeat constructor; intros [] |].
      intros k Hk [<-|[]]. contradiction.
    + intros Hin. contradiction.
    + intros _. clear Hkeys Hnd.
      induction (app_settings db) as [|[k0 v0] rows IH]; [reflexivity|].
      simpl in *. destruct (String.eqb_spec k0 key) as [->|Hne]; [tauto|].
      rewrite IH by tauto. reflexivity.
Qed.

Lemma save_setting_primary_key_witness :
  NoDup (map fst (app_settings (save_setting db_branded "accent_color" "#ffffff"))) /\
  map fst (app_settings (save_setting db_branded "accent_color" "#ffffff"))
  = ["company_name"; "accent_color"] /\
  app_settings (save_setting db_branded "logo_path" "logo.png") =
  (app_settings db_branded ++ [("logo_path", Some "logo.png")])%list.
Proof.
  assert (Hnd : NoDup (map fst (app_settings db_branded))).
  { repeat constructor; simpl; intuition discriminate. }
  split; [|split].
  - apply (save_setting_primary_key db_branded "accent_color" "#ffffff" Hnd).
  - apply (proj1 (proj2 (save_setting_primary_key db_branded "accent_color"
                           "#ffffff" Hnd))).
    simpl. tauto.
  - apply (proj1 (proj2 (proj2 (save_setting_primary_key db_branded "logo_path"
                                  "logo.png" Hnd)))).
    simpl. intuition discriminate.
Defined.

(** ** The client table under [save_client] *)

(** X4: once the identifier [_next_kundennummer] computes is stored, which a
    caller can bring about by saving under it, a save that leaves the
    identifier to [save_client] raises the integrity error and changes
    nothing, so the same holds of every such save after it. *)
Theorem auto_assignment_stuck (db : database) (data extra : dict) :
  In (_next_kundennummer db) (map kundennummer (clients db)) ->
  auto_identifier (data, extra) ->
  (exists msg : string,
     save_client db data extra = (Raise (IntegrityError msg), db)) /\
  In (_next_kundennummer (snd (save_client db data extra)))
     (map kundennummer (clients (snd (save_client db data extra)))).
Proof.
  intros Htaken Hauto.
  assert (Hraise : exists msg : string,
             save_client db data extra = (Raise (IntegrityError msg), db)).
  { unfold save_client. rewrite py_or_falsy by exact Hauto.
    destruct (insert_client_cases db
                (row_of_data (_next_kundennummer db) data (json_dumps extra)))
      as [(_ & msg & Hraise) | (Hfresh & _)].
    - exists msg. exact Hraise.
    - elim Hfresh. exact Htaken. }
  split; [exact Hraise|]. destruct Hraise as (msg & ->). exact Htaken.
Qed.

Lemma auto_assignment_stuck_witness :
  _next_kundennummer db_taken = "K-00002" /\
  (exists msg : string,
     save_client db_taken [("name", "Anna")] [] = (Raise (IntegrityError msg), db_taken)).
Proof.
  split; [reflexivity|].
  apply (auto_assignment_stuck db_taken [("name", "Anna")] []).
  - vm_compute. tauto.
  - reflexivity.
Defined.

Lemma save_client_appends (db : database) (data extra : dict) :
  exists added : list client_row,
    clients (snd (save_client db data extra)) = (clients db ++ added)%list /\
    (List.length added <= 1)%nat /\
    (fst (save_client db data extra) = Ok tt -> List.length added = 1%nat) /\
    users (snd (save_client db data extra)) = users db /\
    app_settings (snd (save_client db data extra)) = app_settings db.
Proof.
  unfold save_client.
  destruct (insert_client_cases db
              (row_of_data
                 (py_or (dict_get "kundennummer" data) (_next_kundennummer db))
                 data (json_dumps extra)))
    as [(_ & msg & ->) | (_ & ->)].
  - exists []. cbn [fst snd]. rewrite app_nil_r.
    repeat split; auto. discriminate.
  - eexists [_]. cbn [fst snd clients users app_settings append_client].
    repeat split; auto.
Qed.

(** X5: saving never alters or removes a stored client and never touches
    the accounts or the settings: whatever the records and whether or not one
    of them raises, the table afterwards is the table before with at most
    one new row for each record at its end. *)
Theorem save_clients_append_only (db : database) (records : list (dict * dict)) :
  exists added : list client_row,
    clients (snd (save_clients db records)) = (clients db ++ added)%list /\
    (List.length added <= List.length records)%nat /\
    (fst (save_clients db records) = Ok tt ->
     List.length added = List.length records) /\
    users (snd (save_clients db records)) = users db /\
    app_settings (snd (save_clients db records)) = app_settings db.
Proof.
  revert db. induction records as [|[data extra] records IH]; intros db.
  - exists []. cbn. rewrite app_nil_r. repeat split; auto.
  - cbn [save_clients].
    destruct (save_client_appends db data extra)
      as (added1 & Hrows1 & Hlen1 & Hok1 & Husers1 & Hset1).
    destruct (save_client db data extra) as [[[]|e] db1]; cbn [fst snd] in *.
    + destruct (IH db1) as (added & Hrows & Hlen & Hok & Husers & Hset).
      exists (added1 ++ added)%list.
      rewrite Hrows, Hrows1, Husers, Hset, <- app_assoc, List.length_app.
      specialize (Hok1 eq_refl). cbn [List.length].
      repeat split; auto; try lia. intros H. specialize (Hok H). lia.
    + exists added1. cbn [List.length]. repeat split; auto; try lia.
      discriminate.
Qed.




Lemma store_ok_save_client (db : database) (data extra : dict) :
  dict_wf extra -> store_ok db -> store_ok (snd (save_client db data extra)).
Proof.
  intros Hwf (Hkn & Hid & Hne & listed & Hlist).
  destruct (save_client_keeps_unique db data extra Hkn Hid) as [Hkn' Hid'].
  pose proof (fun db' => list_clients_save db db' data extra listed Hwf) as Hsaved.
  unfold store_ok. split; [exact Hkn'|]. split; [exact Hid'|].
  clear Hkn' Hid'. revert Hsaved. unfold save_client.
  destruct (insert_client_cases db
              (row_of_data
                 (py_or (dict_get "kundennummer" data) (_next_kundennummer db))
                 data (json_dumps extra)))
    as [(_ & msg & ->) | (_ & ->)]; cbn [snd]; intros Hsaved.
  - split; [exact Hne|]. now exists listed.
  - split.
    + cbn [clients append_client]. apply Forall_app. split; [exact Hne|].
      constructor; [|constructor]. cbn [kundennummer with_rowid row_of_data].
      destruct (dict_get "kundennummer" data) as [kn|]; cbn [py_or].
      * destruct (String.eqb_spec kn ""); [discriminate|assumption].
      * discriminate.
    + eexists. apply Hsaved; [reflexivity|exact Hlist].
Qed.

(** X7: the empty store is well formed and every save of a record with a
    proper dictionary of extra fields, raising or not, leaves a well formed
    store: no identifier and no rowid twice, no empty identifier, and a
    table that [list_clients] can list. *)
Theorem save_clients_keeps_store_ok (db : database) (records : list (dict * dict)) :
  store_ok empty_database /\
  (store_ok db -> Forall (fun record => dict_wf (snd record)) records ->
   store_ok (snd (save_clients db records))).
Proof.
  split.
  - repeat split; try constructor. now exists [].
  - revert db. induction records as [|[data extra] records IH];
      intros db Hok Hall; [exact Hok|].
    inversion Hall as [|? ? Hwf Hall']; subst. cbn [snd] in Hwf.
    pose proof (store_ok_save_client db data extra Hwf Hok) as Hok1.
    cbn [save_clients].
    destruct (save_client db data extra) as [[[]|e] db1]; cbn [snd] in *.
    + now apply IH.
    + exact Hok1.
Qed.

Lemma save_clients_keeps_store_ok_witness :
  store_ok (snd (save_clients empty_database [record1; record2; record3])).
Proof.
  destruct (save_clients_keeps_store_ok empty_database
              [record1; record2; record3]) as [Hempty Hkeeps].
  apply Hkeeps; [exact Hempty|].
  repeat constructor; simpl; intuition discriminate.
Defined.

(** ** The tabular export *)



Lemma list_clients_records (db : database) (listed : list dict) :
  list_clients db = Ok listed ->
  Forall (fun rec : dict =>
            exists (row : client_row) (extra : dict),
              In row (clients db) /\
              rec = dict_update (client_of_row row) extra)
    listed.
Proof.
  intros Hlist. unfold list_clients in Hlist. apply mapM_Forall2 in Hlist.
  assert (Hrows : forall row, In row (order_by_id_desc (clients db)) ->
                              In row (clients db))
    by (intros row; apply order_by_id_desc_in).
  induction Hlist as [|row rec rows recs Hrow _ IH]; constructor.
  - unfold client_of_row_merged in Hrow.
    destruct (json_loads (py_or (extra_fields row) "{}")) as [extra|];
      [|discriminate].
    injection Hrow as <-. exists row, extra. split; [apply Hrows; now left|].
    reflexivity.
  - apply IH. intros row' Hin. apply Hrows. now right.
Qed.

Lemma nth_map_lt {A B : Type} (f : A -> B) (l : list A) (i : nat) (d : B)
    (d' : A) :
  (i < List.length l)%nat -> nth i (map f l) d = f (nth i l d').
Proof.
  intros Hi. rewrite (nth_indep _ d (f d')) by (now rewrite length_map).
  apply map_nth.
Qed.



(** ** The contract window *)

Lemma drawn_texts_contract_page (self : ContractWindow) :
  map snd (drawn_texts (contract_page self)) =
  ("Vertrag" :: label_value_lines self ++
   ["Mit der Unterzeichnung bestätigen beide Parteien den Vertrag.";
    "Signatur"])%list.
Proof.
  unfold contract_page. cbn [app drawn_texts flat_map].
  fold (drawn_texts (concat (map (stroke_lines signature_base) (strokes self))
                     ++ [showPage])).
  rewrite drawn_texts_app, drawn_texts_strokes. reflexivity.
Qed.

Lemma drawn_lines_contract_page (self : ContractWindow) :
  drawn_lines (contract_page self) =
  concat (map (stroke_lines signature_base) (strokes self)).
Proof.
  unfold contract_page, drawn_lines. cbn [app filter]. rewrite filter_app.
  cbn [filter]. rewrite app_nil_r. apply drawn_lines_strokes.
Qed.

(** X9: the exported page shows the client as the text composed for the
    window does: six of the seven label and value lines are the same in
    both, the address line differs in its label alone; and the page is the
    same whatever the company name, the logo path and the accent colour
    are. *)
Theorem contract_page_and_text (self other : ContractWindow) :
  (forall i : nat,
     (i < 7)%nat -> i <> 2%nat ->
     nth (S i) (map snd (drawn_texts (contract_page self))) "" =
     nth i (contract_text_lines self) "") /\
  (exists address : string,
     nth 3 (map snd (drawn_texts (contract_page self))) "" =
     "Adresse: " ++ address /\
     nth 2 (contract_text_lines self) "" = "Straße / Ort: " ++ address) /\
  (client other = client self -> strokes other = strokes self ->
   contract_page other = contract_page self).
Proof.
  rewrite drawn_texts_contract_page. split; [|split].
  - intros i Hi Hne. unfold contract_text_lines, label_value_lines.
    destruct (truthy (Some (company_name self)));
      destruct (truthy (Some (logo_path self)));
      do 7 (destruct i as [|i]; [try reflexivity; contradiction|]); lia.
  - eexists. split; [reflexivity|]. unfold contract_text_lines.
    destruct (truthy (Some (company_name self)));
      destruct (truthy (Some (logo_path self))); reflexivity.
  - intros Hclient Hstrokes. unfold contract_page.
    now rewrite Hclient, Hstrokes.
Qed.

Lemma contract_page_and_text_witness :
  nth 1 (map snd (drawn_texts (contract_page contract_example))) "" =
  nth 0 (contract_text_lines contract_example) "" /\
  contract_page (with_signature contract_example
                   {| pad_strokes := strokes contract_example;
                      current_stroke := []; canvas_lines := [] |})
  = contract_page contract_example.
Proof.
  split.
  - apply (proj1 (contract_page_and_text contract_example contract_example) 0%nat);
      [lia | discriminate].
  - apply (proj2 (proj2 (contract_page_and_text contract_example
                           (with_signature contract_example
                              {| pad_strokes := strokes contract_example;
                                 current_stroke := []; canvas_lines := [] |}))));
      reflexivity.
Defined.

(** ** The signature pad *)

Lemma handle_all_app (evs evs' : list pad_event) :
  forall pad : SignaturePad,
    handle_all pad (evs ++ evs') = handle_all (handle_all pad evs) evs'.
Proof.
  induction evs as [|ev evs IH]; intros pad; [reflexivity|].
  cbn [app handle_all]. destruct (handle pad ev); apply IH.
Qed.

Lemma segments_snoc (points : list (Z * Z)) (p q : Z * Z) :
  segments ((points ++ [p]) ++ [q]) =
  (segments (points ++ [p]) ++ [(fst p, snd p, fst q, snd q)])%list.
Proof.
  induction points as [|a points IH]; [reflexivity|].
  change (((a :: points) ++ [p]) ++ [q])%list
    with (a :: ((points ++ [p]) ++ [q]))%list.
  change ((a :: points) ++ [p])%list with (a :: (points ++ [p]))%list.
  cbn [segments]. rewrite IH.
  destruct points as [|b points]; reflexivity.
Qed.

Lemma handle_motions (through : list (Z * Z)) :
  forall (done : list (list (Z * Z))) (before : list (Z * Z)) (last_ : Z * Z)
         (lines : list (Z * Z * Z * Z)),
    handle_all
      {| pad_strokes := done; current_stroke := before ++ [last_];
         canvas_lines := lines ++ segments (before ++ [last_]) |}
      (map Motion through) =
    {| pad_strokes := done;
       current_stroke := (before ++ [last_]) ++ through;
       canvas_lines := lines ++ segments ((before ++ [last_]) ++ through) |}.
Proof.
  induction through as [|q through IH]; intros done before last_ lines.
  - cbn [map handle_all]. now rewrite app_nil_r.
  - cbn [map handle_all handle]. unfold _draw.
    cbn [current_stroke pad_strokes canvas_lines].
    rewrite rev_app_distr. cbn [rev app].
    rewrite <- (app_assoc lines), <- segments_snoc.
    rewrite (IH done (before ++ [last_])%list q lines).
    now rewrite <- !app_assoc.
Qed.

Lemma handle_gesture (pad : SignaturePad) (start : Z * Z)
    (through : list (Z * Z)) :
  handle_all pad (gesture (start, through)) =
  {| pad_strokes := pad_strokes pad ++ [start :: through];
     current_stroke := [];
     canvas_lines := canvas_lines pad ++ segments (start :: through) |}.
Proof.
  unfold gesture. cbn [fst snd handle_all handle]. rewrite handle_all_app.
  unfold _start.
  pose proof (handle_motions through (pad_strokes pad) [] start
                (canvas_lines pad)) as Hm.
  cbn [app segments] in Hm. rewrite app_nil_r in Hm. rewrite Hm.
  reflexivity.
Qed.

Lemma length_segments (through : list (Z * Z)) :
  forall start : Z * Z,
    List.length (segments (start :: through)) = List.length through.
Proof.
  induction through as [|q through IH]; intros start; [reflexivity|].
  change (segments (start :: q :: through))
    with ((fst start, snd start, fst q, snd q) :: segments (q :: through)).
  cbn [List.length]. now rewrite IH.
Qed.

(** X10: a stroke of the pen, the button down at a point, the pointer moved
    through any number of others, the button up, adds to the strokes of the
    pad one stroke with exactly these points in their order, whatever the
    pad held before, and draws on the canvas the segments between
    neighbouring points, as many as the pointer made moves. *)
Theorem gesture_adds_stroke (pad : SignaturePad) (start : Z * Z)
    (through : list (Z * Z)) :
  handle_all pad (gesture (start, through)) =
  {| pad_strokes := pad_strokes pad ++ [start :: through];
     current_stroke := [];
     canvas_lines := canvas_lines pad ++ segments (start :: through) |} /\
  List.length (segments (start :: through)) = List.length through.
Proof.
  split; [apply handle_gesture | apply length_segments].
Qed.

Lemma handle_keeps_strokes_nonempty (pad : SignaturePad) (ev : pad_event) :
  Forall (fun stroke => stroke <> []) (pad_strokes pad) ->
  match handle pad ev with
  | Returns pad' => Forall (fun stroke => stroke <> []) (pad_strokes pad')
  | IndexError => current_stroke pad = []
  end.
Proof.
  intros Hall. destruct ev as [p|p| |]; cbn [handle].
  - exact Hall.
  - unfold _draw. destruct (current_stroke pad) as [|a l] eqn:E.
    + reflexivity.
    + destruct (rev (a :: l)) eqn:Er; [|exact Hall].
      apply (f_equal (@List.length _)) in Er. rewrite length_rev in Er.
      discriminate.
  - unfold _end. destruct (current_stroke pad) as [|a l] eqn:E; [exact Hall|].
    cbn [pad_strokes]. apply Forall_app. split; [exact Hall|].
    constructor; [discriminate|constructor].
  - constructor.
Qed.

(** X11: whatever events reach the pad and in whatever order, no stroke of
    the pad is ever empty; a motion while no stroke is in progress raises
    [IndexError] and a release while none is in progress changes nothing. *)
Theorem strokes_never_empty (evs : list pad_event) (pad : SignaturePad) :
  (Forall (fun stroke => stroke <> []) (pad_strokes pad) ->
   Forall (fun stroke => stroke <> []) (pad_strokes (handle_all pad evs))) /\
  (current_stroke pad = [] ->
   (forall p : Z * Z, _draw pad p = IndexError) /\ _end pad = pad).
Proof.
  split.
  - revert pad. induction evs as [|ev evs IH]; intros pad Hall; [exact Hall|].
    cbn [handle_all]. pose proof (handle_keeps_strokes_nonempty pad ev Hall) as H.
    destruct (handle pad ev); now apply IH.
  - intros Hcur. unfold _draw, _end. rewrite Hcur. split; reflexivity.
Qed.

Lemma strokes_never_empty_witness :
  Forall (fun stroke => stroke <> [])
    (pad_strokes
       (handle_all SignaturePad_init
          [Motion (1, 1); ButtonRelease; ButtonPress (2, 2); ButtonPress (3, 3);
           ClearButton; Motion (4, 4); ButtonRelease; ButtonRelease])) /\
  _draw SignaturePad_init (5, 5) = IndexError.
Proof.
  split.
  - apply (proj1 (strokes_never_empty _ SignaturePad_init)). constructor.
  - apply (proj2 (strokes_never_empty [] SignaturePad_init)). reflexivity.
Defined.

Lemma stroke_lines_cons (y : Q) (p q : Z * Z) (rest : list (Z * Z)) :
  stroke_lines y (p :: q :: rest) =
  on_page y (fst p, snd p, fst q, snd q) :: stroke_lines y (q :: rest).
Proof.
  unfold stroke_lines. cbn [List.length Nat.sub].
  rewrite Nat.sub_0_r. cbn [seq map]. f_equal.
  rewrite <- seq_shift, map_map. apply map_ext. intros i.
  reflexivity.
Qed.

Lemma stroke_lines_segments (y : Q) (stroke : list (Z * Z)) :
  stroke_lines y stroke = map (on_page y) (segments stroke).
Proof.
  induction stroke as [|p stroke IH]; [reflexivity|].
  destruct stroke as [|q rest]; [reflexivity|].
  rewrite stroke_lines_cons, IH. reflexivity.
Qed.

Lemma handle_pen_action (pad : SignaturePad) (a : pen_action) :
  current_stroke pad = [] ->
  canvas_lines pad = concat (map segments (pad_strokes pad)) ->
  let pad' := handle_all pad (pen_events [a]) in
  current_stroke pad' = [] /\
  canvas_lines pad' = concat (map segments (pad_strokes pad')) /\
  pad_strokes pad' = pen_strokes (pad_strokes pad) [a].
Proof.
  intros Hcur Hlines. unfold pen_events. cbn [flat_map]. rewrite app_nil_r.
  destruct a as [start through|].
  - rewrite handle_gesture.
    cbn [current_stroke canvas_lines pad_strokes pen_strokes].
    rewrite map_app, concat_app, Hlines. cbn [map concat].
    now rewrite app_nil_r.
  - cbn [handle_all handle clear current_stroke canvas_lines pad_strokes
         pen_strokes map concat].
    auto.
Qed.

(** X12: after any strokes of the pen and any clearings between them, the
    pad holds the strokes made since the last clearing, and the segments the
    exported page shows are the segments on the canvas, each moved by 50 to
    the right and by the height of the page less 256 upwards. *)
Theorem signature_on_page (actions : list pen_action) (self : ContractWindow) :
  let pad := handle_all SignaturePad_init (pen_events actions) in
  pad_strokes pad = pen_strokes [] actions /\
  current_stroke pad = [] /\
  drawn_lines (contract_page (with_signature self pad)) =
  map (on_page signature_base) (canvas_lines pad) /\
  (signature_base == snd A4 - 256)%Q.
Proof.
  assert (Hinv : forall (pad : SignaturePad),
             current_stroke pad = [] ->
             canvas_lines pad = concat (map segments (pad_strokes pad)) ->
             let pad' := handle_all pad (pen_events actions) in
             current_stroke pad' = [] /\
             canvas_lines pad' = concat (map segments (pad_strokes pad')) /\
             pad_strokes pad' = pen_strokes (pad_strokes pad) actions).
  { induction actions as [|a actions IH]; intros pad Hcur Hlines.
    - cbn. auto.
    - replace (pen_events (a :: actions))
        with (pen_events [a] ++ pen_events actions)%list
        by (unfold pen_events; cbn [flat_map]; now rewrite app_nil_r).
      cbv zeta. rewrite handle_all_app.
      destruct (handle_pen_action pad a Hcur Hlines) as (Hcur1 & Hlines1 & Hs1).
      destruct (IH _ Hcur1 Hlines1) as (Hcur' & Hlines' & Hs').
      split; [exact Hcur'|]. split; [exact Hlines'|].
      rewrite Hs', Hs1. destruct a; reflexivity. }
  destruct (Hinv SignaturePad_init eq_refl eq_refl) as (Hcur & Hlines & Hs).
  cbv zeta. split; [exact Hs|]. split; [exact Hcur|]. split; [|reflexivity].
  rewrite drawn_lines_contract_page. cbn [strokes with_signature].
  rewrite Hlines. clear.
  induction (pad_strokes _) as [|stroke rest IH]; [reflexivity|].
  cbn [map concat]. rewrite map_app, IH, stroke_lines_segments. reflexivity.
Qed.

(** ** [strip] *)

Lemma plain_not_space (c : ascii) :
  plain c = true ->
  ascii_space c = false /\
  (forall d, space2 c d = false) /\
  (forall d e, space3 c d e = false).
Proof.
  destruct c as [[] [] [] [] [] [] [] []]; intros H; try discriminate H;
    repeat split.
Qed.

Lemma lstrip_plain (c : ascii) (s : string) :
  plain c = true -> lstrip (String c s) = String c s.
Proof.
  intros Hc. destruct (plain_not_space c Hc) as (H1 & H2 & H3).
  cbn [lstrip]. rewrite H1. destruct s as [|d [|e s]]; [reflexivity| |].
  - now rewrite H2.
  - now rewrite H2, H3.
Qed.

Lemma all_space_plain (c : ascii) (s : string) :
  plain c = true -> all_space (String c s) = false.
Proof.
  intros Hc. destruct (plain_not_space c Hc) as (H1 & H2 & H3).
  cbn [all_space]. rewrite H1. destruct s as [|d [|e s]]; [reflexivity| |].
  - now rewrite H2.
  - now rewrite H2, H3.
Qed.

Lemma rstrip_plain (s : string) : all_plain s = true -> rstrip s = s.
Proof.
  induction s as [|c s IH]; [reflexivity|]. cbn [all_plain].
  intros H. apply andb_prop in H. destruct H as [Hc Hs].
  change (rstrip (String c s))
    with (if all_space (String c s) then "" else String c (rstrip s)).
  now rewrite all_space_plain, IH.
Qed.

Lemma strip_plain (s : string) : all_plain s = true -> strip s = s.
Proof.
  intros H. unfold strip. destruct s as [|c s]; [reflexivity|].
  rewrite lstrip_plain; [now apply rstrip_plain|].
  cbn [all_plain] in H. now apply andb_prop in H.
Qed.

Lemma all_plain_app (s t : string) :
  all_plain (s ++ t) = all_plain s && all_plain t.
Proof.
  induction s as [|c s IH]; [reflexivity|]. cbn [append all_plain].
  now rewrite IH, andb_assoc.
Qed.

Lemma plain_digit_char (d : Z) : 0 <= d < 10 -> plain (digit_char d) = true.
Proof.
  intros Hd. unfold plain, digit_char. rewrite N_ascii_embedding by lia.
  apply andb_true_intro. split; apply N.leb_le; lia.
Qed.

Lemma all_plain_decimal_digits (fuel : nat) :
  forall (n : Z) (acc : string),
    all_plain acc = true -> all_plain (decimal_digits fuel n acc) = true.
Proof.
  induction fuel as [|fuel IH]; intros n acc Hacc; [exact Hacc|].
  cbn [decimal_digits].
  assert (Hacc' : all_plain (String (digit_char (n mod 10)) acc) = true).
  { cbn [all_plain]. rewrite plain_digit_char by (apply Z.mod_pos_bound; lia).
    exact Hacc. }
  destruct (n / 10 =? 0); [exact Hacc'|]. now apply IH.
Qed.

Lemma all_plain_zfill (w : nat) (n : Z) :
  all_plain (zfill w (str_of_nonneg n)) = true.
Proof.
  unfold zfill, str_of_nonneg. rewrite all_plain_app.
  rewrite all_plain_decimal_digits by reflexivity. rewrite andb_true_r.
  induction (w - _)%nat as [|k IH]; [reflexivity|].
  cbn [repeat_char all_plain]. now rewrite IH.
Qed.

(** An identifier [_next_kundennummer] computes has no white space to
    strip. *)
Lemma strip_next_kundennummer (db : database) :
  strip (_next_kundennummer db) = _next_kundennummer db /\
  _next_kundennummer db <> "".
Proof.
  split; [|discriminate]. apply strip_plain. unfold _next_kundennummer.
  cbn [append all_plain]. unfold format_05d.
  destruct (_ <? 0); [cbn [append all_plain]|]; now rewrite all_plain_zfill.
Qed.

(** ** The login window *)

Lemma truthy_Some (s : string) : truthy (Some s) = negb (s =? "")%string.
Proof. reflexivity. Qed.

Lemma validate_user_created (kdf : string -> string -> string -> Z -> list ascii)
    (db db' : database) (urandom : nat -> ascii) (u p : string) :
  create_user kdf db urandom u p = (Ok true, db') ->
  validate_user kdf db' u p = true /\
  clients db' = clients db /\ app_settings db' = app_settings db.
Proof.
  unfold create_user, validate_user, select_user.
  destruct (insert_user_cases db u
              (_hash_password kdf p (token_hex urandom 16))
              (token_hex urandom 16))
    as [(_ & msg & ->) | (Hfresh & row & -> & Hu & Hh & Hs & _)];
    [discriminate|].
  intros H. injection H as <-. cbn [users clients app_settings].
  rewrite find_app_none by (now apply find_username_none). cbn [find].
  rewrite Hu, String.eqb_refl, Hh, Hs, String.eqb_refl. auto.
Qed.

Lemma load_clients_listed (self : ClientApp) (listed : list dict) :
  list_clients (app_db self) = Ok listed ->
  _load_clients self = (Ok tt, with_tree self (map tree_values listed) None).
Proof.
  intros H. unfold _load_clients.
  change (app_db (with_tree self [] None)) with (app_db self). now rewrite H.
Qed.

(** X13: with the user name or the password blank once the white space
    around it is stripped, logging in and registering do nothing but show
    the same warning: the store is not asked, no account is made, nobody is
    logged in and the login window stays. *)
Theorem auth_blank_credentials
    (kdf : string -> string -> string -> Z -> list ascii)
    (self : AuthWindow) (master : ClientApp) (urandom : nat -> ascii) :
  strip (username_var self) = "" \/ strip (password_var self) = "" ->
  let warned :=
    app_messagebox showwarning "Hinweis"
      "Bitte Benutzername und Passwort eingeben." master in
  _handle_login kdf self master = (Ok tt, (self, warned)) /\
  _handle_register kdf self master urandom = (Ok tt, (self, warned)) /\
  app_db warned = app_db master /\
  app_username warned = app_username master /\
  app_visible warned = app_visible master.
Proof.
  intros Hblank warned. unfold _handle_login, _handle_register.
  rewrite !truthy_Some.
  assert (Hb : negb (negb (strip (username_var self) =? "")%string)
               || negb (negb (strip (password_var self) =? "")%string) = true).
  { destruct Hblank as [-> | ->]; cbn; [reflexivity|].
    now rewrite orb_true_r. }
  rewrite Hb. repeat split.
Qed.

Lemma auth_blank_credentials_witness :
  fst (_handle_register example_kdf
         {| username_var := "  "; password_var := "pw1"; auth_destroyed := false |}
         (ClientApp_init world_empty) example_random) = Ok tt /\
  users (app_db (snd (snd (_handle_register example_kdf
         {| username_var := "  "; password_var := "pw1"; auth_destroyed := false |}
         (ClientApp_init world_empty) example_random)))) = [].
Proof.
  destruct (auth_blank_credentials example_kdf
              {| username_var := "  "; password_var := "pw1";
                 auth_destroyed := false |}
              (ClientApp_init world_empty) example_random
              (or_introl eq_refl)) as (_ & Hregister & _).
  rewrite Hregister. split; reflexivity.
Defined.

(** X14: registering under a user name that is free and then logging in
    with the same two fields succeeds, whatever white space stands around
    them, where the clients can be listed and the accent colour is one Tk
    takes: the registration reports success and logs nobody in; the login
    closes the login window, shows the main window under the stripped user
    name, with the form on the next identifier and the list filled from the
    store.  Neither touches the clients. *)
Theorem register_then_login
    (kdf : string -> string -> string -> Z -> list ascii)
    (self : AuthWindow) (master : ClientApp) (urandom : nat -> ascii)
    (listed : list dict) :
  strip (username_var self) <> "" ->
  strip (password_var self) <> "" ->
  ~ In (strip (username_var self)) (map username (users (app_db master))) ->
  list_clients (app_db master) = Ok listed ->
  tk_color (app_accent_color master) = true ->
  exists master1 master2 : ClientApp,
    _handle_register kdf self master urandom = (Ok tt, (self, master1)) /\
    app_username master1 = app_username master /\
    map msg_title (w_messages (app_world master1)) =
    (map msg_title (w_messages (app_world master)) ++ ["Erfolg"])%list /\
    _handle_login kdf self master1 = (Ok tt, (destroy_auth self, master2)) /\
    app_username master2 = Some (strip (username_var self)) /\
    app_visible master2 = true /\
    tree master2 = map tree_values listed /\
    dict_get "kundennummer" (form_vars master2) =
    Some (_next_kundennummer (app_db master)) /\
    clients (app_db master2) = clients (app_db master).
Proof.
  intros Hu Hp Hfresh Hlist Hcolor. unfold _handle_register, _handle_login.
  rewrite !truthy_Some.
  destruct (String.eqb_spec (strip (username_var self)) ""); [contradiction|].
  destruct (String.eqb_spec (strip (password_var self)) ""); [contradiction|].
  cbn [negb orb].
  destruct (create_user kdf (app_db master) urandom (strip (username_var self))
              (strip (password_var self))) as [r db'] eqn:Hcreate.
  assert (Hr : r = Ok true).
  { revert Hcreate. unfold create_user.
    destruct (insert_user_cases (app_db master) (strip (username_var self))
                (_hash_password kdf (strip (password_var self))
                   (token_hex urandom 16))
                (token_hex urandom 16))
      as [(Hin & _) | (_ & row & -> & _)]; [contradiction|].
    intros H. now injection H as <- _. }
  subst r. destruct (validate_user_created _ _ _ _ _ _ Hcreate)
    as (Hvalid & Hclients & Hsettings).
  eexists. eexists. split; [reflexivity|]. split; [reflexivity|].
  split; [cbn; now rewrite map_app|].
  change (app_db (app_messagebox showinfo "Erfolg"
                    "Konto erstellt. Sie können sich jetzt anmelden."
                    (with_db master db'))) with db'.
  rewrite Hvalid. unfold on_login_success, _build_ui.
  cbn [app_accent_color app_messagebox with_db with_world]. rewrite Hcolor.
  cbn [negb].
  assert (Hlist' : list_clients db' = Ok listed)
    by (unfold list_clients in *; now rewrite Hclients).
  rewrite (load_clients_listed _ listed) by exact Hlist'.
  split; [reflexivity|]. split; [reflexivity|]. split; [reflexivity|].
  split; [reflexivity|]. split; [|exact Hclients].
  cbn [form_vars with_tree]. unfold _next_kundennummer, app_db. cbn.
  now rewrite Hclients.
Qed.

Lemma register_then_login_witness :
  exists master2 : ClientApp,
    snd (snd (_handle_login example_kdf
                {| username_var := " alice"; password_var := "pw1 ";
                   auth_destroyed := false |}
                (snd (snd (_handle_register example_kdf
                             {| username_var := " alice"; password_var := "pw1 ";
                                auth_destroyed := false |}
                             (ClientApp_init world_empty) example_random)))))
    = master2 /\
    app_username master2 = Some "alice" /\
    dict_get "kundennummer" (form_vars master2) = Some "K-00001".
Proof.
  destruct (register_then_login example_kdf
              {| username_var := " alice"; password_var := "pw1 ";
                 auth_destroyed := false |}
              (ClientApp_init world_empty) example_random [])
    as (master1 & master2 & Hregister & _ & _ & Hlogin & Huser & _ & _ & Hform & _);
    [discriminate | discriminate | simpl; tauto | reflexivity | reflexivity |].
  exists master2. rewrite Hregister. cbn [snd]. rewrite Hlogin.
  split; [reflexivity|]. split; [exact Huser | exact Hform].
Defined.

(** X15: logging in never writes to the store, whatever the fields hold
    and whether or not it succeeds; and with both fields filled and the
    pair not valid, it shows the error box and leaves the login window open
    and the main window as it was. *)
Theorem login_never_writes
    (kdf : string -> string -> string -> Z -> list ascii)
    (self : AuthWindow) (master : ClientApp) :
  app_db (snd (snd (_handle_login kdf self master))) = app_db master /\
  (strip (username_var self) <> "" -> strip (password_var self) <> "" ->
   validate_user kdf (app_db master) (strip (username_var self))
     (strip (password_var self)) = false ->
   _handle_login kdf self master =
   (Ok tt,
    (self, app_messagebox showerror "Fehler" "Ungültige Zugangsdaten." master))).
Proof.
  unfold _handle_login. rewrite !truthy_Some. split.
  - destruct (negb (negb _) || negb (negb _)); [reflexivity|].
    destruct (validate_user _ _ _ _); [|reflexivity].
    unfold on_login_success, _build_ui, _load_clients.
    cbn [app_accent_color].
    destruct (negb (tk_color (app_accent_color master))); [reflexivity|].
    match goal with
    | |- context [list_clients ?db] => destruct (list_clients db)
    end; reflexivity.
  - intros Hu Hp Hbad.
    destruct (String.eqb_spec (strip (username_var self)) ""); [contradiction|].
    destruct (String.eqb_spec (strip (password_var self)) ""); [contradiction|].
    cbn [negb orb]. now rewrite Hbad.
Qed.

Lemma login_never_writes_witness :
  _handle_login example_kdf
    {| username_var := "alice"; password_var := "wrong"; auth_destroyed := false |}
    (ClientApp_init {| w_db := db_alice; w_files := []; w_messages := [] |})
  = (Ok tt,
     ({| username_var := "alice"; password_var := "wrong";
         auth_destroyed := false |},
      app_messagebox showerror "Fehler" "Ungültige Zugangsdaten."
        (ClientApp_init {| w_db := db_alice; w_files := []; w_messages := [] |}))).
Proof.
  apply (proj2 (login_never_writes example_kdf
                  {| username_var := "alice"; password_var := "wrong";
                     auth_destroyed := false |}
                  (ClientApp_init
                     {| w_db := db_alice; w_files := []; w_messages := [] |})));
    [discriminate | discriminate | vm_compute; reflexivity].
Defined.

(** ** The main window *)

Lemma dict_get_map_values (f : string -> string) (k : string) (d : dict) :
  dict_get k (map (fun kv => (fst kv, f (snd kv))) d) =
  option_map f (dict_get k d).
Proof.
  induction d as [|[k0 v0] d IH]; [reflexivity|]. cbn [map fst snd dict_get].
  destruct (k0 =? k)%string; [reflexivity|exact IH].
Qed.

(** X16: with the name field blank once the white space around it is
    stripped, saving the form does nothing but show a warning: nothing is
    written to the store, and the form, the extra field rows and the list
    stay as they are. *)
Theorem save_client_form_requires_name (self : ClientApp) (v : string) :
  dict_get "name" (form_vars self) = Some v ->
  strip v = "" ->
  _save_client self =
  (Ok tt,
   app_messagebox showwarning "Hinweis"
     "Bitte geben Sie mindestens den Namen des Kunden ein." self) /\
  app_db (snd (_save_client self)) = app_db self /\
  form_vars (snd (_save_client self)) = form_vars self /\
  extra_field_rows (snd (_save_client self)) = extra_field_rows self /\
  tree (snd (_save_client self)) = tree self.
Proof.
  intros Hname Hblank. unfold _save_client.
  rewrite (dict_get_map_values strip), Hname. cbn [option_map].
  rewrite Hblank. cbn [truthy String.eqb negb]. repeat split.
Qed.

Lemma save_client_form_requires_name_witness :
  clients (app_db (snd (_save_client
    (with_form app_example
       (dict_set "name" "   " (form_vars app_example))
       (extra_field_rows app_example))))) = [].
Proof.
  rewrite (proj1 (proj2 (save_client_form_requires_name
                           (with_form app_example
                              (dict_set "name" "   " (form_vars app_example))
                              (extra_field_rows app_example))
                           "   " eq_refl eq_refl))).
  reflexivity.
Defined.

Lemma dict_get_of_key (k : string) (d : dict) :
  In k (dict_keys d) -> exists v : string, dict_get k d = Some v.
Proof.
  induction d as [|[k0 v0] d IH]; [intros []|]. cbn.
  destruct (String.eqb_spec k0 k); [eauto|].
  intros [Heq|Hin]; [contradiction|auto].
Qed.

Lemma dict_set_wf (k v : string) (d : dict) : dict_wf d -> dict_wf (dict_set k v d).
Proof.
  unfold dict_wf. induction d as [|[k0 v0] d IH]; intros Hwf; cbn.
  - repeat constructor. intros [].
  - inversion Hwf as [|? ? Hfresh Hwf']; subst.
    destruct (String.eqb_spec k0 k) as [->|Hne]; cbn; [exact Hwf|].
    constructor; [|now apply IH].
    intros Hin. destruct (dict_get k0 (dict_set k v d)) eqn:E.
    + rewrite dict_get_set in E.
      destruct (String.eqb_spec k k0); [congruence|].
      apply dict_get_in_keys in E. contradiction.
    + clear - Hin E. induction (dict_set k v d) as [|[a b] l IHl]; [destruct Hin|].
      cbn in *. destruct (String.eqb_spec a k0); [discriminate|].
      destruct Hin; [contradiction|auto].
Qed.

Lemma find_snoc {A : Type} (f : A -> bool) (l : list A) (a : A) :
  find f (l ++ [a]) =
  match find f l with
  | Some x => Some x
  | None => if f a then Some a else None
  end.
Proof.
  induction l as [|x l IH]; [reflexivity|]. cbn [app find].
  destruct (f x); [reflexivity|exact IH].
Qed.

Lemma collect_extra_fields_from (rows : list (string * string)) :
  forall (acc : dict) (k : string),
    k <> "" ->
    dict_get k
      (fold_left
         (fun extra row =>
            if truthy (Some (strip (fst row)))
            then dict_set (strip (fst row)) (strip (snd row)) extra
            else extra)
         rows acc) =
    match find (fun row => (strip (fst row) =? k)%string) (rev rows) with
    | Some row => Some (strip (snd row))
    | None => dict_get k acc
    end.
Proof.
  induction rows as [|row rows IH]; intros acc k Hk; [reflexivity|].
  cbn [fold_left rev]. rewrite IH by exact Hk. rewrite find_snoc.
  destruct (find _ (rev rows)); [reflexivity|].
  rewrite truthy_Some.
  destruct (String.eqb_spec (strip (fst row)) k) as [Heq|Hne].
  - rewrite Heq. destruct (String.eqb_spec k ""); [contradiction|].
    cbn [negb]. now rewrite dict_get_set, String.eqb_refl.
  - destruct (negb (strip (fst row) =? "")%string); [|reflexivity].
    rewrite dict_get_set. destruct (String.eqb_spec (strip (fst row)) k);
      [contradiction|reflexivity].
Qed.

Lemma collect_extra_fields_wf (rows : list (string * string)) :
  dict_wf (collect_extra_fields rows) /\
  dict_get "" (collect_extra_fields rows) = None.
Proof.
  unfold collect_extra_fields.
  assert (H : forall acc : dict,
             dict_wf acc /\ dict_get "" acc = None ->
             dict_wf (fold_left
                        (fun extra row =>
                           if truthy (Some (strip (fst row)))
                           then dict_set (strip (fst row)) (strip (snd row)) extra
                           else extra) rows acc) /\
             dict_get ""
               (fold_left
                  (fun extra row =>
                     if truthy (Some (strip (fst row)))
                     then dict_set (strip (fst row)) (strip (snd row)) extra
                     else extra) rows acc) = None).
  { induction rows as [|row rows IH]; intros acc Hacc; [exact Hacc|].
    cbn [fold_left]. apply IH. rewrite truthy_Some.
    destruct (String.eqb_spec (strip (fst row)) "") as [|Hne]; cbn [negb];
      [exact Hacc|].
    destruct Hacc as [Hwf Hnone]. split; [now apply dict_set_wf|].
    rewrite dict_get_set.
    destruct (String.eqb_spec (strip (fst row)) ""); [contradiction|exact Hnone]. }
  apply H. split; [constructor|reflexivity].
Qed.

(** X17: the extra fields [_save_client] gathers from the rows are a
    proper dictionary without an empty name: a row whose name is blank once
    stripped is dropped with its value, a name is stored stripped with the
    stripped value of the last row that carries it, and a row that
    [_add_extra_field] added (with an accent colour Tk takes) and that was
    left as it came is stored under the name [Feldname], with an empty
    value. *)
Theorem collect_extra_fields_rows (rows : list (string * string)) (self : ClientApp) :
  dict_wf (collect_extra_fields rows) /\
  dict_get "" (collect_extra_fields rows) = None /\
  (forall k : string,
     k <> "" ->
     dict_get k (collect_extra_fields rows) =
     option_map (fun row => strip (snd row))
       (find (fun row => (strip (fst row) =? k)%string) (rev rows))) /\
  (tk_color (app_accent_color self) = true ->
   fst (_add_extra_field self) = Ok tt /\
   dict_get "Feldname"
     (collect_extra_fields (extra_field_rows (snd (_add_extra_field self))))
   = Some "").
Proof.
  destruct (collect_extra_fields_wf rows) as [Hwf Hnone].
  split; [exact Hwf|]. split; [exact Hnone|]. split.
  - intros k Hk. unfold collect_extra_fields.
    rewrite collect_extra_fields_from by exact Hk.
    destruct (find _ (rev rows)); reflexivity.
  - intros Hcolor. unfold _add_extra_field. rewrite Hcolor. cbn [negb fst snd].
    split; [reflexivity|]. unfold collect_extra_fields.
    rewrite collect_extra_fields_from by discriminate.
    cbn [extra_field_rows with_form].
    rewrite rev_app_distr. reflexivity.
Qed.

Lemma collect_extra_fields_rows_witness :
  collect_extra_fields (extra_field_rows app_example) =
  [("Hund", "nein"); ("Feldname", "")] /\
  dict_get "Hund" (collect_extra_fields (extra_field_rows app_example)) =
  Some "nein".
Proof.
  split; [reflexivity|].
  rewrite (proj1 (proj2 (proj2 (collect_extra_fields_rows
                                  (extra_field_rows app_example) app_example))))
    by discriminate.
  reflexivity.
Defined.

Lemma auto_assigned_save_next (n : nat) (db : database) (data extra : dict) :
  auto_assigned n db ->
  py_or (dict_get "kundennummer" data) (_next_kundennummer db)
  = _next_kundennummer db ->
  exists db', save_client db data extra = (Ok tt, db') /\
              auto_assigned (S n) db'.
Proof.
  intros Hauto Hkn. pose proof (auto_assigned_next n db Hauto) as Hnext.
  pose proof (auto_assigned_max n db Hauto) as Hmax.
  destruct (auto_assigned_columns n db Hauto) as [_ Hkns].
  destruct Hauto as [Hrows Hseq]. unfold save_client.
  rewrite Hkn, Hnext.
  unfold insert_client. cbn [kundennummer row_of_data].
  destruct (existsb _ (clients db)) eqn:Hdup.
  - exfalso. apply existsb_kundennummer in Hdup.
    rewrite Hkns in Hdup. apply in_map_iff in Hdup.
    destruct Hdup as (i & Hi & Hin). apply in_seq in Hin.
    injection Hi as Hi. apply format_05d_inj in Hi. lia.
  - eexists. split; [reflexivity|]. unfold auto_assigned, append_client, with_rowid.
    cbn [clients clients_seq clients_id kundennummer].
    assert (Hid : next_rowid clients_id (clients db) (clients_seq db)
                  = Z.of_nat (S n)).
    { unfold next_rowid. rewrite Hmax, Hseq. destruct n; lia. }
    rewrite Hid. split; [|reflexivity].
    rewrite map_app, Hrows, seq_S, map_app.
    cbn [map clients_id kundennummer row_of_data].
    replace (Z.of_nat (1 + n)) with (Z.of_nat n + 1) by lia.
    replace (Z.of_nat (S n)) with (Z.of_nat n + 1) by lia. reflexivity.
Qed.

Lemma dict_get_reset_form_vars (k kn : string) (vars : dict) :
  dict_get k (reset_form_vars vars kn) =
  match dict_get k vars with
  | Some _ => Some (if (k =? "kundennummer")%string then kn else "")
  | None => None
  end.
Proof.
  induction vars as [|[k0 v0] vars IH]; [reflexivity|].
  cbn [reset_form_vars map fst snd dict_get].
  destruct (String.eqb_spec k0 k) as [->|Hne]; [reflexivity|exact IH].
Qed.

Lemma dict_keys_reset_form_vars (kn : string) (vars : dict) :
  dict_keys (reset_form_vars vars kn) = dict_keys vars.
Proof.
  unfold dict_keys, reset_form_vars. rewrite map_map. reflexivity.
Qed.

(** X18: the main window keeps the form numbered.  Whenever the form shows
    the next identifier of a store that holds [n] clients under the
    identifiers [save_client] assigned and the list shows its clients,
    saving with a name that is not blank does not raise, stores the client
    under the identifier shown, says so, puts the client at the top of the
    list above the former rows, removes the extra field rows, empties the
    other fields, and leaves the form showing the next identifier of the
    store, which now holds [n + 1] such clients. *)
Theorem save_client_form_numbering (n : nat) (self : ClientApp) (v : string) :
  form_ready n self ->
  dict_get "name" (form_vars self) = Some v ->
  strip v <> "" ->
  let data := map (fun kv => (fst kv, strip (snd kv))) (form_vars self) in
  let kn := "K-" ++ format_05d (Z.of_nat n + 1) in
  exists self' : ClientApp,
    _save_client self = (Ok tt, self') /\
    form_ready (S n) self' /\
    tree self' =
    tree_values
      (listed_record kn data (collect_extra_fields (extra_field_rows self)))
    :: tree self /\
    extra_field_rows self' = [] /\
    dict_keys (form_vars self') = dict_keys (form_vars self) /\
    (forall k : string,
       k <> "kundennummer" -> In k (dict_keys (form_vars self)) ->
       dict_get k (form_vars self') = Some "") /\
    w_messages (app_world self') =
    (w_messages (app_world self) ++
     [{| msg_kind := showinfo; msg_title := "Gespeichert";
         msg_text := "Kunde gespeichert." |}])%list.
Proof.
  intros (Hauto & Hkn & listed & Hlist & Htree) Hname Hfilled data kn.
  destruct (strip_next_kundennummer (app_db self)) as [Hstrip Hnonempty].
  assert (Hpy : py_or (dict_get "kundennummer" data)
                  (_next_kundennummer (app_db self))
                = _next_kundennummer (app_db self)).
  { unfold data. rewrite (dict_get_map_values strip), Hkn. cbn [option_map].
    rewrite Hstrip. unfold py_or.
    destruct (_next_kundennummer (app_db self) =? "")%string; reflexivity. }
  destruct (auto_assigned_save_next n (app_db self) data
              (collect_extra_fields (extra_field_rows self)) Hauto Hpy)
    as (db' & Hsave & Hauto').
  pose proof (list_clients_save (app_db self) db' data
                (collect_extra_fields (extra_field_rows self)) listed
                (proj1 (collect_extra_fields_wf _)) Hsave Hlist) as Hlist'.
  rewrite Hpy, (auto_assigned_next n _ Hauto) in Hlist'. fold kn in Hlist'.
  unfold _save_client. fold data.
  unfold data at 1. rewrite (dict_get_map_values strip), Hname.
  cbn [option_map]. rewrite truthy_Some.
  destruct (String.eqb_spec (strip v) ""); [contradiction|]. cbn [negb].
  rewrite Hsave.
  match goal with
  | |- context [_load_clients ?app] =>
      rewrite (load_clients_listed app _ Hlist')
  end.
  eexists. split; [reflexivity|].
  split; [|split; [|split; [|split; [|split]]]].
  - split; [exact Hauto'|]. split.
    + cbn [form_vars with_tree with_form].
      rewrite dict_get_reset_form_vars.
      change (form_vars (app_messagebox _ _ _ (with_db self db')))
        with (form_vars self).
      rewrite Hkn. reflexivity.
    + eexists. split; [exact Hlist'|]. reflexivity.
  - cbn [tree with_tree map]. now rewrite <- Htree.
  - reflexivity.
  - cbn [form_vars with_tree with_form]. apply dict_keys_reset_form_vars.
  - intros k Hk Hin. cbn [form_vars with_tree with_form].
    rewrite dict_get_reset_form_vars.
    change (form_vars (app_messagebox _ _ _ (with_db self db')))
      with (form_vars self).
    destruct (dict_get k (form_vars self)) eqn:E.
    + destruct (String.eqb_spec k "kundennummer"); [contradiction|reflexivity].
    + destruct (dict_get_of_key k _ Hin) as (v' & Hv'). congruence.
  - reflexivity.
Qed.

Lemma save_client_form_numbering_witness :
  tree (snd (_save_client app_example)) =
  [["K-00001"; "Anna Arndt"; ""; "Kiel"; ""; ""; ""]] /\
  dict_get "kundennummer" (form_vars (snd (_save_client app_example))) =
  Some "K-00002".
Proof.
  assert (Hready : form_ready 0 app_example).
  { split; [split; reflexivity|]. split; [reflexivity|].
    exists []. split; reflexivity. }
  assert (Hfilled : strip "  Anna Arndt " <> "") by (vm_compute; discriminate).
  destruct (save_client_form_numbering 0 app_example "  Anna Arndt "
              Hready eq_refl Hfilled)
    as (self' & Hsave & (_ & Hform & _) & Htree & _).
  assert (Hself : snd (_save_client app_example) = self') by (now rewrite Hsave).
  rewrite Hself. split.
  - rewrite Htree. reflexivity.
  - rewrite Hform, <- Hself. reflexivity.
Defined.

Lemma listed_has_identifier (db : database) (listed : list dict) :
  list_clients db = Ok listed ->
  Forall (fun rec : dict =>
            exists kn : string, dict_get "kundennummer" rec = Some kn)
    listed.
Proof.
  intros Hlist. apply list_clients_records in Hlist.
  eapply Forall_impl; [|exact Hlist].
  intros rec (row & extra & _ & ->).
  destruct (dict_get "kundennummer" (dict_update (client_of_row row) extra))
    as [kn|] eqn:E; [now exists kn|].
  exfalso. revert E. apply dict_get_update_some. discriminate.
Qed.

Lemma NoDup_map_eq {A B : Type} (f : A -> B) (l : list A) (x y : A) :
  NoDup (map f l) -> In x l -> In y l -> f x = f y -> x = y.
Proof.
  induction l as [|a l IH]; [intros _ []|].
  cbn [map]. intros Hnd Hx Hy Hxy.
  inversion Hnd as [|? ? Hfresh Hnd']; subst.
  destruct Hx as [->|Hx], Hy as [->|Hy]; [reflexivity| | |now apply IH].
  - elim Hfresh. rewrite Hxy. now apply in_map.
  - elim Hfresh. rewrite <- Hxy. now apply in_map.
Qed.

(** X19: with the list in step with the store, a row selected and an accent
    colour Tk takes, opening the contract does not say that the client was
    not found: it opens one contract window, with the branding the main
    window holds and an empty signature, for a listed client with the
    identifier the selected row shows; this is the client of the selected
    row when no two listed clients show the same identifier.  Nothing else
    changes. *)
Theorem open_contract_window_selected (self : ClientApp) (listed : list dict)
    (i : nat) :
  list_clients (app_db self) = Ok listed ->
  tree self = map tree_values listed ->
  tree_focus self = Some i ->
  (i < List.length listed)%nat ->
  tk_color (app_accent_color self) = true ->
  exists (client_ : dict) (self' : ClientApp),
    _open_contract_window self = (Ok tt, self') /\
    contract_windows self' =
    (contract_windows self ++
     [{| client := client_;
         company_name := or_empty (app_company_name self);
         logo_path := or_empty (app_logo_path self);
         accent_color := or_empty (app_accent_color self);
         strokes := [] |}])%list /\
    app_world self' = app_world self /\
    form_vars self' = form_vars self /\
    tree self' = tree self /\
    In client_ listed /\
    dict_get "kundennummer" client_ =
    dict_get "kundennummer" (nth i listed []) /\
    (NoDup (map (dict_get "kundennummer") listed) ->
     client_ = nth i listed []).
Proof.
  intros Hlist Htree Hfocus Hi Hcolor.
  pose proof (listed_has_identifier _ _ Hlist) as Hids.
  assert (Hin : In (nth i listed []) listed) by (now apply nth_In).
  destruct (proj1 (Forall_forall _ _) Hids _ Hin) as (kn & Hkn).
  unfold _open_contract_window. rewrite Hfocus, Hlist, Htree.
  rewrite (nth_map_lt tree_values listed i [] ([] : dict)) by exact Hi.
  change (nth 0 (tree_values (nth i listed [])) "")
    with (tk_str (dict_get "kundennummer" (nth i listed []))).
  rewrite Hkn. cbn [tk_str].
  destruct (find _ listed) as [client_|] eqn:Hfind.
  - apply find_some in Hfind. destruct Hfind as [Hin' Hsame].
    destruct (dict_get "kundennummer" client_) as [kn'|] eqn:Hkn';
      [|discriminate].
    apply String.eqb_eq in Hsame. subst kn'.
    destruct client_ as [|kv rest]; [discriminate|].
    rewrite Hcolor. cbn [negb].
    eexists. eexists. split; [reflexivity|].
    cbn [contract_windows app_world form_vars tree].
    repeat (split; [reflexivity|]). split; [exact Hin'|].
    split; [exact Hkn'|].
    intros Hnd. apply (NoDup_map_eq (dict_get "kundennummer") listed);
      [exact Hnd | exact Hin' | exact Hin | congruence].
  - exfalso. apply (find_none _ _ Hfind) in Hin. cbn beta in Hin.
    rewrite Hkn, String.eqb_refl in Hin. discriminate.
Qed.

Lemma open_contract_window_selected_witness :
  exists win : ContractWindow,
    contract_windows (snd (_open_contract_window app_two_clients)) = [win] /\
    dict_get "name" (client win) = Some "Anna Arndt".
Proof.
  assert (Hlist : list_clients (app_db app_two_clients) =
                  Ok (match list_clients (app_db app_two_clients) with
                      | Ok l => l
                      | Raise _ => []
                      end)) by (vm_compute; reflexivity).
  assert (Hi : (1 < List.length
                      (match list_clients (app_db app_two_clients) with
                       | Ok l => l
                       | Raise _ => []
                       end))%nat) by (vm_compute; lia).
  destruct (open_contract_window_selected app_two_clients _ 1%nat
              Hlist eq_refl eq_refl Hi eq_refl)
    as (client_ & self' & Hopen & Hwin & _ & _ & _ & _ & _ & Hsame).
  rewrite Hopen. cbn [snd]. rewrite Hwin. eexists. split; [reflexivity|].
  cbn [client]. rewrite Hsame; [reflexivity|].
  vm_compute. repeat constructor; simpl; intuition discriminate.
Defined.

(** ** The settings window *)

Lemma load_save_same (db : database) (k v d : string) :
  load_setting (save_setting db k v) k d = Some v.
Proof.
  unfold load_setting, save_setting. cbn [app_settings].
  destruct (find_upsert_same k (Some v) (app_settings db)) as (row & -> & Hrow).
  exact Hrow.
Qed.

Lemma load_save_other (db : database) (k v k' d : string) :
  k <> k' ->
  load_setting (save_setting db k v) k' d = load_setting db k' d.
Proof.
  intros Hne. unfold load_setting, save_setting. cbn [app_settings].
  now rewrite find_upsert_other.
Qed.

(** X20: saving the settings window stores the three fields stripped, the
    accent colour as the default colour when its field is blank, so that it
    is never empty; the main window holds these values at once, a start of
    the program reads the same three, and a settings window opened next
    shows them when the colour is one Tk takes.  The accounts and the
    clients stay as they are, and the colour is stored whether or not it is
    a colour. *)
Theorem settings_saved (self : SettingsWindow) (master : ClientApp) :
  let company := strip (company_var self) in
  let logo := strip (logo_var self) in
  let accent :=
    if (strip (color_var self) =? "")%string then DEFAULT_ACCENT
    else strip (color_var self) in
  let master' := _save self master in
  accent <> "" /\
  app_company_name master' = Some company /\
  app_logo_path master' = Some logo /\
  app_accent_color master' = Some accent /\
  app_company_name (ClientApp_init (app_world master')) = Some company /\
  app_logo_path (ClientApp_init (app_world master')) = Some logo /\
  app_accent_color (ClientApp_init (app_world master')) = Some accent /\
  users (app_db master') = users (app_db master) /\
  clients (app_db master') = clients (app_db master) /\
  (tk_color (Some accent) = true ->
   SettingsWindow_init master' =
   Ok {| company_var := company; logo_var := logo; color_var := accent |}).
Proof.
  intros company logo accent master'.
  assert (Hc : load_setting (app_db master') "company_name" "" = Some company).
  { unfold master', _save, app_db. cbn [app_world app_messagebox with_world
      with_db messagebox w_db].
    rewrite load_save_other by discriminate.
    rewrite load_save_other by discriminate. apply load_save_same. }
  assert (Hl : load_setting (app_db master') "logo_path" "" = Some logo).
  { unfold master', _save, app_db. cbn [app_world app_messagebox with_world
      with_db messagebox w_db].
    rewrite load_save_other by discriminate. apply load_save_same. }
  assert (Ha : load_setting (app_db master') "accent_color" DEFAULT_ACCENT
               = Some accent).
  { unfold master', _save, app_db. cbn [app_world app_messagebox with_world
      with_db messagebox w_db].
    apply load_save_same. }
  split.
  { unfold accent. destruct (String.eqb_spec (strip (color_var self)) "");
      [discriminate|assumption]. }
  split; [exact Hc|]. split; [exact Hl|]. split; [exact Ha|].
  split; [exact Hc|]. split; [exact Hl|]. split; [exact Ha|].
  split; [reflexivity|]. split; [reflexivity|].
  intros Hcolor. unfold SettingsWindow_init.
  change (app_accent_color master')
    with (load_setting (app_db master') "accent_color" DEFAULT_ACCENT).
  rewrite Hc, Hl, Ha, Hcolor. reflexivity.
Qed.

Lemma settings_saved_witness :
  app_accent_color
    (_save {| company_var := " Pflegedienst Nord "; logo_var := "";
              color_var := "   " |}
       (ClientApp_init world_empty)) = Some DEFAULT_ACCENT /\
  SettingsWindow_init
    (_save {| company_var := " Pflegedienst Nord "; logo_var := "";
              color_var := "   " |}
       (ClientApp_init world_empty)) =
  Ok {| company_var := "Pflegedienst Nord"; logo_var := "";
        color_var := DEFAULT_ACCENT |}.
Proof.
  destruct (settings_saved
              {| company_var := " Pflegedienst Nord "; logo_var := "";
                 color_var := "   " |}
              (ClientApp_init world_empty))
    as (_ & _ & _ & Haccent & _ & _ & _ & _ & _ & Hwindow).
  split; [exact Haccent | exact (Hwindow eq_refl)].
Defined.
